(** * twisted.enterprise.adbapi: the connection pool and its transaction wrapping

    A shallow embedding of [src/twisted/enterprise/adbapi.py].  The DB-API
    module, the connections and cursors it hands out, the [cp_openfun] hook
    and the interaction functions are collaborators of the pool: every call
    the pool makes on one of them is recorded, with its outcome, in a trace,
    and whether such a call raises is decided by an arbitrary [Driver].
    The pool's own code is a computation in a state-and-exception monad over
    the pool object and that trace. *)

From Stdlib Require Import ZArith String Ascii List Lia Bool.
From stdpp Require Import base option gmap strings list fin_maps.

Local Open Scope string_scope.
Local Open Scope list_scope.

(** ** Python values and exceptions *)

(** Object identities.  [thread.get_ident()] names the worker; connections
    and cursors are objects created by the driver, compared with [is]. *)
Abbreviation ThreadId := nat (only parsing).
Abbreviation ConnId := nat (only parsing).
Abbreviation CursorId := nat (only parsing).
Abbreviation Hook := nat (only parsing).
Abbreviation TriggerId := nat (only parsing).

Inductive PyVal : Type :=
| PNone
| PInt (z : Z)
| PStr (s : string).

(** What a cursor attribute or an interaction yields. *)
Inductive Value : Type :=
| VScalar (v : PyVal)
| VRows (rows : list (list PyVal)).

Inductive Exn : Type :=
| PyException (msg : string)      (* raise Exception(msg) *)
| AttributeError (attr : string)  (* a missing attribute *)
| DriverError (code : nat).       (* whatever a collaborator raises *)

Inductive Result (A : Type) : Type :=
| Ok (a : A)
| Err (e : Exn).
Arguments Ok {A} a.
Arguments Err {A} e.

(** The keyword arguments of [ConnectionPool(dbapiName, *connargs, **connkw)]:
    the four [cp_] keys the pool reads and deletes, and the keys that stay
    for the driver.  [None] is an absent key. *)
Record Keywords : Type := mkKeywords {
  cp_min : option Z;
  cp_max : option Z;
  cp_noisy : option bool;
  cp_openfun : option Hook;
  driver_kw : list (string * PyVal)
}.

(** An attribute that only some method assigns: reading it before raises
    AttributeError. *)
Inductive Attribute (A : Type) : Type :=
| Unset
| Assigned (a : A).
Arguments Unset {A}.
Arguments Assigned {A} a.

(** ** The trace of calls on collaborators *)

Inductive LogMsg : Type :=
| NotCompliant                    (* 'DB API module not DB API 2.0 compliant.' *)
| NotThreadSafe                   (* 'DB API module not sufficiently thread-safe.' *)
| Connecting (name : string) (args : list PyVal) (kw : Keywords)
| Closing (name : string) (args : list PyVal) (kw : Keywords).

Inductive Call : Type :=
(* the DB-API module and its objects *)
| DbConnect (args : list PyVal) (kw : Keywords)
| ConnCursor (c : ConnId)
| ConnCommit (c : ConnId)
| ConnRollback (c : ConnId)
| ConnClose (c : ConnId)
| CursorAttr (cur : CursorId) (name : string) (args : list PyVal)
(* callables handed to the pool *)
| OpenFun (h : Hook) (c : ConnId)
| Interact (args : list PyVal)
(* the Twisted runtime *)
| LogMsgCall (m : LogMsg)
| ThreadPoolNew (lo hi : Z)
| ThreadPoolStart
| ThreadPoolStop
| CallWhenRunning
| AddShutdownTrigger
| RemoveTrigger (t : TriggerId).

Inductive Ret : Type :=
| RNone
| RConn (c : ConnId)
| RCursor (cur : CursorId)
| RValue (v : Value)
| RTrigger (t : TriggerId).

Inductive Reply : Type :=
| Raised (e : Exn)
| Returned (r : Ret).

Inductive Event : Type :=
| Ev (c : Call) (r : Reply).

(** The environment of a pool: the attributes of the DB-API module that
    [__init__] inspects, which calls raise (given everything that happened
    so far), and what a cursor attribute yields. *)
Record Driver : Type := mkDriver {
  apilevel : option string;
  threadsafety : Z;
  raises : list Event -> Call -> option Exn;
  answer : list Event -> CursorId -> string -> list PyVal -> Value
}.

(** ** The pool object and the state *)

Record ConnectionPool : Type := mkPool {
  dbapiName : string;
  noisy : bool;
  min : Z;
  max : Z;
  running : bool;
  openfun : option Hook;
  connargs : list PyVal;
  connkw : Keywords;
  connections : gmap nat nat;            (* thread id -> connection *)
  startID : option TriggerId;
  shutdownID : Attribute (option TriggerId)
}.

Record World : Type := mkWorld {
  trace : list Event;
  next_conn : nat;
  next_cursor : nat;
  next_trigger : nat
}.

Record State : Type := mkState {
  pool : ConnectionPool;
  world : World
}.

Definition history (s : State) : list Event := trace (world s).

Definition set_connections (f : gmap nat nat -> gmap nat nat) (p : ConnectionPool) : ConnectionPool :=
  mkPool (dbapiName p) (noisy p) (min p) (max p) (running p) (openfun p)
         (connargs p) (connkw p) (f (connections p)) (startID p) (shutdownID p).

Definition set_running (b : bool) (p : ConnectionPool) : ConnectionPool :=
  mkPool (dbapiName p) (noisy p) (min p) (max p) b (openfun p)
         (connargs p) (connkw p) (connections p) (startID p) (shutdownID p).

Definition set_startID (t : option TriggerId) (p : ConnectionPool) : ConnectionPool :=
  mkPool (dbapiName p) (noisy p) (min p) (max p) (running p) (openfun p)
         (connargs p) (connkw p) (connections p) t (shutdownID p).

Definition set_shutdownID (t : option TriggerId) (p : ConnectionPool) : ConnectionPool :=
  mkPool (dbapiName p) (noisy p) (min p) (max p) (running p) (openfun p)
         (connargs p) (connkw p) (connections p) (startID p) (Assigned t).

Definition record_event (ev : Event) (w : World) : World :=
  mkWorld (trace w ++ [ev]) (next_conn w) (next_cursor w) (next_trigger w).

(** ** The monad: state, and exceptions that keep the state *)

Definition M (A : Type) : Type := State -> Result A * State.

Definition ret {A} (a : A) : M A := fun s => (Ok a, s).

Definition bind {A B} (m : M A) (k : A -> M B) : M B := fun s =>
  match m s with
  | (Ok a, s1) => k a s1
  | (Err e, s1) => (Err e, s1)
  end.

Definition raise {A} (e : Exn) : M A := fun s => (Err e, s).

Declare Scope adbapi_scope.
Delimit Scope adbapi_scope with adbapi.
Notation "'let*' x ':=' m 'in' k" := (bind m (fun x => k))
  (at level 10, x name, m at level 100, k at level 200) : adbapi_scope.
Notation "m ';;' k" := (bind m (fun _ => k))
  (at level 100, k at level 200, right associativity) : adbapi_scope.
Local Open Scope adbapi_scope.

(** [try: body / except: handler; raise]: the failure of [body] is re-raised
    after [handler], unless [handler] raises itself. *)
Definition try_except_reraise {A} (body : M A) (handler : M unit) : M A := fun s =>
  match body s with
  | (Ok a, s1) => (Ok a, s1)
  | (Err e, s1) =>
      match handler s1 with
      | (Ok _, s2) => (Err e, s2)
      | (Err e', s2) => (Err e', s2)
      end
  end.

Definition get_pool : M ConnectionPool := fun s => (Ok (pool s), s).

Definition modify_pool (f : ConnectionPool -> ConnectionPool) : M unit := fun s =>
  (Ok tt, mkState (f (pool s)) (world s)).

Definition when (b : bool) (m : M unit) : M unit := if b then m else ret tt.

Definition emit (ev : Event) (s : State) : State :=
  mkState (pool s) (record_event ev (world s)).

(** How the Deferred handed to the caller ends up. *)
Inductive Deferred (A : Type) : Type :=
| Callback (a : A)
| Errback (e : Exn).
Arguments Callback {A} a.
Arguments Errback {A} e.

(** ** The pool's code *)

Section Pool.

Variable drv : Driver.

(** A call on the driver or on a callable of the user: the driver decides
    whether it raises; otherwise [result] computes what it returns. *)
Definition call {A} (c : Call) (result : World -> A * Ret * World) : M A := fun s =>
  match raises drv (history s) c with
  | Some e => (Err e, emit (Ev c (Raised e)) s)
  | None =>
      let '(a, r, w) := result (world s) in
      (Ok a, emit (Ev c (Returned r)) (mkState (pool s) w))
  end.

Definition call_none (c : Call) : M unit :=
  call c (fun w => (tt, RNone, w)).

(** Modelled from the spec: [log.msg], the thread pool and the reactor
    are not in this file; calls on them are recorded and return. *)
Definition runtime (c : Call) : M unit := fun s =>
  (Ok tt, emit (Ev c (Returned RNone)) s).

Definition log_msg (m : LogMsg) : M unit := runtime (LogMsgCall m).

Definition new_trigger (c : Call) : M TriggerId := fun s =>
  let w := world s in
  let t := next_trigger w in
  (Ok t, emit (Ev c (Returned (RTrigger t)))
           (mkState (pool s) (mkWorld (trace w) (next_conn w) (next_cursor w) (S t)))).

(** [self.dbapi.connect] applied to the stored arguments creates a
    connection object. *)
Definition dbapi_connect (args : list PyVal) (kw : Keywords) : M ConnId :=
  call (DbConnect args kw)
       (fun w => (next_conn w, RConn (next_conn w),
                  mkWorld (trace w) (S (next_conn w)) (next_cursor w) (next_trigger w))).

(** [conn.cursor()] creates a cursor object. *)
Definition conn_cursor (c : ConnId) : M CursorId :=
  call (ConnCursor c)
       (fun w => (next_cursor w, RCursor (next_cursor w),
                  mkWorld (trace w) (next_conn w) (S (next_cursor w)) (next_trigger w))).

Definition conn_commit (c : ConnId) : M unit := call_none (ConnCommit c).
Definition conn_rollback (c : ConnId) : M unit := call_none (ConnRollback c).
Definition conn_close (c : ConnId) : M unit := call_none (ConnClose c).

(** The cursor's attribute [name], called on [args] (or just read). *)
Definition cursor_attr (cur : CursorId) (name : string) (args : list PyVal) : M Value :=
  call (CursorAttr cur name args)
       (fun w => let v := answer drv (trace w) cur name args in (v, RValue v, w)).

(** *** class Transaction *)

Record Transaction : Type := mkTransaction {
  _connection : ConnId;
  _cursor : option CursorId        (* the class attribute [_cursor = None] *)
}.

Definition reopen (self : Transaction) : M Transaction :=
  (match _cursor self with
   | Some cur => cursor_attr cur "close" [] ;; ret tt
   | None => ret tt
   end) ;;
  let* cur := conn_cursor (_connection self) in
  ret (mkTransaction (_connection self) (Some cur)).

Definition Transaction__init__ (pool : ConnectionPool) (connection : ConnId) : M Transaction :=
  reopen (mkTransaction connection None).

(** [__getattr__] is reached for every name that the handle does not
    define itself ([reopen], [_connection], [_cursor]). *)
Definition __getattr__ (self : Transaction) (name : string) (args : list PyVal) : M Value :=
  match _cursor self with
  | Some cur => cursor_attr cur name args
  | None => raise (AttributeError name)
  end.

(** *** class ConnectionPool *)

(** Modelled from the spec: [threadpool.ThreadPool] is not in this file;
    the worker-pool primitive is an external collaborator, and building it
    is recorded and returns. *)
Definition ThreadPool (lo hi : Z) (w : World) : World :=
  record_event (Ev (ThreadPoolNew lo hi) (Returned RNone)) w.

(** Modelled from the spec: the reactor is not in this file ("thin
    wiring"); [reactor.callWhenRunning(self.start)] is recorded and returns
    the trigger that calls [start()] once the reactor runs. *)
Definition callWhenRunning (w : World) : TriggerId * World :=
  let t := next_trigger w in
  (t, mkWorld (trace w ++ [Ev CallWhenRunning (Returned (RTrigger t))])
              (next_conn w) (next_cursor w) (S t)).

(** The class attributes [noisy = 1], [min = 3], [max = 5], [running = 0],
    [openfun = None], then the body of [__init__].  [reflect.namedModule]
    resolves to the driver at hand.  [shutdownID] has no class attribute and
    is not assigned here. *)
Definition __init__ (dbapiName : string) (connargs : list PyVal) (connkw : Keywords)
    (w : World) : State :=
  let noisy0 := true in
  let min0 := 3%Z in
  let max0 := 5%Z in
  let w := if decide (apilevel drv = Some "2.0") then w
           else record_event (Ev (LogMsgCall NotCompliant) (Returned RNone)) w in
  let w := if (threadsafety drv <? 1)%Z
           then record_event (Ev (LogMsgCall NotThreadSafe) (Returned RNone)) w
           else w in
  let min1 := match cp_min connkw with Some v => v | None => min0 end in
  let max1 := match cp_max connkw with Some v => v | None => max0 end in
  let noisy1 := match cp_noisy connkw with Some v => v | None => noisy0 end in
  let openfun1 := cp_openfun connkw in
  (* the four keys are deleted from the dict that self.connkw refers to *)
  let stored_kw := mkKeywords None None None None (driver_kw connkw) in
  let min2 := Z.min min1 max1 in
  let max2 := Z.max min2 max1 in
  let w := ThreadPool min2 max2 w in
  let (t, w) := callWhenRunning w in
  mkState (mkPool dbapiName noisy1 min2 max2 false openfun1 connargs stored_kw
                  ∅ (Some t) Unset) w.

Definition start : M unit :=
  let* self := get_pool in
  if running self then ret tt
  else
    runtime ThreadPoolStart ;;
    let* t := new_trigger AddShutdownTrigger in
    modify_pool (set_shutdownID (Some t)) ;;
    modify_pool (set_running true).

Definition _close (conn : ConnId) : M unit :=
  let* self := get_pool in
  when (noisy self)
       (log_msg (Closing (dbapiName self) (connargs self) (connkw self))) ;;
  conn_close conn.

Fixpoint for_each {A} (l : list A) (body : A -> M unit) : M unit :=
  match l with
  | [] => ret tt
  | x :: rest => body x ;; for_each rest body
  end.

(** [self.connections.values()] is a list made before the loop starts; the
    order of a dict is not specified, here it is that of [map_to_list]. *)
Definition finalClose : M unit :=
  runtime ThreadPoolStop ;;
  modify_pool (set_running false) ;;
  let* self := get_pool in
  for_each (snd <$> map_to_list (connections self)) _close ;;
  modify_pool (set_connections (fun _ => ∅)).

Definition close : M unit :=
  let* self := get_pool in
  (match shutdownID self with
   | Unset => raise (AttributeError "shutdownID")
   | Assigned (Some t) =>
       runtime (RemoveTrigger t) ;; modify_pool (set_shutdownID None)
   | Assigned None => ret tt
   end) ;;
  let* self := get_pool in
  (match startID self with
   | Some t => runtime (RemoveTrigger t) ;; modify_pool (set_startID None)
   | None => ret tt
   end) ;;
  finalClose.

Definition connect (tid : ThreadId) : M ConnId :=
  let* self := get_pool in
  match connections self !! tid with
  | Some conn => ret conn
  | None =>
      when (noisy self)
           (log_msg (Connecting (dbapiName self) (connargs self) (connkw self))) ;;
      let* conn := dbapi_connect (connargs self) (connkw self) in
      (match openfun self with
       | Some h => call_none (OpenFun h conn)
       | None => ret tt
       end) ;;
      modify_pool (set_connections (insert tid conn)) ;;
      ret conn
  end.

(** [conn] is [None] or a connection object; [is not] compares identities. *)
Definition disconnect (tid : ThreadId) (conn : option ConnId) : M unit :=
  let* self := get_pool in
  if decide (conn = connections self !! tid) then
    match conn with
    | Some c => _close c ;; modify_pool (set_connections (delete tid))
    | None => ret tt
    end
  else raise (PyException "wrong connection for thread").

(** *** Interactions

    The callable given to [runInteraction] works on the handle it receives:
    it reads or calls a cursor attribute through the handle, calls
    [reopen()], and goes on according to what came back (a failure it may
    catch), until it returns a value or raises. *)
Inductive Interaction : Type :=
| Return (v : Value)
| Raise (e : Exn)
| Attr (name : string) (args : list PyVal) (k : Result Value -> Interaction)
| Reopen (k : Result unit -> Interaction).

Fixpoint interact (f : Interaction) (trans : Transaction) : M (Value * Transaction) := fun s =>
  match f with
  | Return v => (Ok (v, trans), s)
  | Raise e => (Err e, s)
  | Attr name args k =>
      let (r, s1) := __getattr__ trans name args s in
      interact (k r) trans s1
  | Reopen k =>
      match reopen trans s with
      | (Ok trans', s1) => interact (k (Ok tt)) trans' s1
      | (Err e, s1) => interact (k (Err e)) trans s1
      end
  end.

(** The call [interaction(trans, ...)] as the pool sees it. *)
Definition call_interaction (interaction : list PyVal -> Interaction) (args : list PyVal)
    (trans : Transaction) : M (Value * Transaction) := fun s =>
  match interact (interaction args) trans s with
  | (Ok (v, trans'), s1) => (Ok (v, trans'), emit (Ev (Interact args) (Returned (RValue v))) s1)
  | (Err e, s1) => (Err e, emit (Ev (Interact args) (Raised e)) s1)
  end.

Definition _runInteraction (tid : ThreadId) (interaction : list PyVal -> Interaction)
    (args : list PyVal) : M Value :=
  let* self := get_pool in
  let* conn := connect tid in
  let* trans := Transaction__init__ self conn in
  try_except_reraise
    (let* rt := call_interaction interaction args trans in
     __getattr__ (snd rt) "close" [] ;;
     conn_commit (_connection (snd rt)) ;;
     ret (fst rt))
    (conn_rollback (_connection trans)).

Definition _runQuery (tid : ThreadId) (args : list PyVal) : M Value :=
  let* conn := connect tid in
  let* curs := conn_cursor conn in
  try_except_reraise
    (cursor_attr curs "execute" args ;;
     let* result := cursor_attr curs "fetchall" [] in
     cursor_attr curs "close" [] ;;
     conn_commit conn ;;
     ret result)
    (conn_rollback conn).

Definition _runOperation (tid : ThreadId) (args : list PyVal) : M unit :=
  let* conn := connect tid in
  let* curs := conn_cursor conn in
  try_except_reraise
    (cursor_attr curs "execute" args ;;
     cursor_attr curs "close" [] ;;
     conn_commit conn)
    (conn_rollback conn).

(** Modelled from the spec: [threads._putResultInDeferred] and the thread
    pool's [callInThread] are not in this file.  "The future is resolved
    exactly once, either with fn's return value or with the failure it
    raised"; [tid] is the worker thread that picks the unit of work up. *)
Definition _deferToThread {A} (f : ThreadId -> M A) (tid : ThreadId) (s : State) : Deferred A * State :=
  match f tid s with
  | (Ok a, s1) => (Callback a, s1)
  | (Err e, s1) => (Errback e, s1)
  end.

Definition runInteraction (interaction : list PyVal -> Interaction) (args : list PyVal) :=
  _deferToThread (fun tid => _runInteraction tid interaction args).

Definition runQuery (args : list PyVal) :=
  _deferToThread (fun tid => _runQuery tid args).

Definition runOperation (args : list PyVal) :=
  _deferToThread (fun tid => _runOperation tid args).

(** *** What worker threads do to a pool in service *)
Inductive Op : Type :=
| OpConnect (tid : ThreadId)
| OpDisconnect (tid : ThreadId) (conn : option ConnId)
| OpRunQuery (tid : ThreadId) (args : list PyVal)
| OpRunOperation (tid : ThreadId) (args : list PyVal)
| OpRunInteraction (tid : ThreadId) (interaction : list PyVal -> Interaction) (args : list PyVal).

Definition exec (op : Op) (s : State) : State :=
  match op with
  | OpConnect tid => snd (connect tid s)
  | OpDisconnect tid conn => snd (disconnect tid conn s)
  | OpRunQuery tid args => snd (runQuery args tid s)
  | OpRunOperation tid args => snd (runOperation args tid s)
  | OpRunInteraction tid f args => snd (runInteraction f args tid s)
  end.

Definition exec_all (ops : list Op) (s : State) : State :=
  fold_left (fun s op => exec op s) ops s.

End Pool.

(** ** Reading a trace *)

(** The calls recorded between two states of one run. *)
Definition events_since (s s' : State) : list Event :=
  drop (length (history s)) (history s').

Fixpoint count (p : Event -> bool) (evs : list Event) : nat :=
  match evs with
  | [] => O
  | ev :: rest => if p ev then S (count p rest) else count p rest
  end.

Definition is_commit (ev : Event) : bool :=
  match ev with Ev (ConnCommit _) _ => true | _ => false end.

Definition is_rollback (ev : Event) : bool :=
  match ev with Ev (ConnRollback _) _ => true | _ => false end.

Definition is_commit_on (c : ConnId) (ev : Event) : bool :=
  match ev with Ev (ConnCommit c') _ => Nat.eqb c c' | _ => false end.

Definition is_rollback_on (c : ConnId) (ev : Event) : bool :=
  match ev with Ev (ConnRollback c') _ => Nat.eqb c c' | _ => false end.

Definition is_close (ev : Event) : bool :=
  match ev with Ev (ConnClose _) _ => true | _ => false end.

Definition is_close_on (c : ConnId) (ev : Event) : bool :=
  match ev with Ev (ConnClose c') _ => Nat.eqb c c' | _ => false end.

Definition is_failed_close (ev : Event) : bool :=
  match ev with Ev (ConnClose _) (Raised _) => true | _ => false end.

Definition is_open (ev : Event) : bool :=
  match ev with Ev (DbConnect _ _) _ => true | _ => false end.

Definition is_fetchall (ev : Event) : bool :=
  match ev with Ev (CursorAttr _ name _) _ => String.eqb name "fetchall" | _ => false end.

(** What [connect()] may record: the log line, the driver's connect, the hook. *)
Definition connect_phase (ev : Event) : bool :=
  match ev with
  | Ev (LogMsgCall _) _ | Ev (DbConnect _ _) _ | Ev (OpenFun _ _) _ => true
  | _ => false
  end.

(** What an interaction may record through its handle. *)
Definition handle_phase (ev : Event) : bool :=
  match ev with
  | Ev (CursorAttr _ _ _) _ | Ev (ConnCursor _) _ => true
  | _ => false
  end.

(** The log line of [connect()] and of [_close()], when the pool is noisy. *)
Definition connect_log (p : ConnectionPool) : list Event :=
  if noisy p
  then [Ev (LogMsgCall (Connecting (dbapiName p) (connargs p) (connkw p))) (Returned RNone)]
  else [].

Definition close_log (p : ConnectionPool) : list Event :=
  if noisy p
  then [Ev (LogMsgCall (Closing (dbapiName p) (connargs p) (connkw p))) (Returned RNone)]
  else [].

(** The calls of [finalClose()]'s loop over the connections [l], when
    every close() returns. *)
Definition closes (p : ConnectionPool) (l : list ConnId) : list Event :=
  flat_map (fun c => close_log p ++ [Ev (ConnClose c) (Returned RNone)]) l.

(** The call of the hook on a new connection, when one is configured and
    it returns. *)
Definition hook_returned (p : ConnectionPool) (c : ConnId) : list Event :=
  match openfun p with
  | Some h => [Ev (OpenFun h c) (Returned RNone)]
  | None => []
  end.

(** The configuration of a pool. *)
Definition same_config (p p' : ConnectionPool) : Prop :=
  dbapiName p' = dbapiName p /\ min p' = min p /\ max p' = max p /\
  noisy p' = noisy p /\ openfun p' = openfun p /\
  connargs p' = connargs p /\ connkw p' = connkw p.

(** Between [s] and [s'] nothing but the registry entry of [tid] changed
    in the pool object. *)
Definition only_entry_changed (tid : ThreadId) (s s' : State) : Prop :=
  (forall t, t <> tid -> connections (pool s') !! t = connections (pool s) !! t) /\
  same_config (pool s) (pool s').

(** A cursor is closed once a [close()] on it has returned. *)
Definition cursor_closed (evs : list Event) (cur : CursorId) : bool :=
  existsb (fun ev => match ev with
                     | Ev (CursorAttr cur' name _) (Returned _) =>
                         Nat.eqb cur cur' && String.eqb name "close"
                     | _ => false
                     end) evs.

(** The unit of work run by worker [tid] between [s] and [s'] committed:
    one commit, on that worker's connection, and no rollback. *)
Definition committed_once (tid : ThreadId) (s s' : State) : Prop :=
  exists c, connections (pool s') !! tid = Some c /\
            count (is_commit_on c) (events_since s s') = 1%nat /\
            count is_commit (events_since s s') = 1%nat /\
            count is_rollback (events_since s s') = 0%nat.

(** ... rolled back: one rollback, on that worker's connection, no commit. *)
Definition rolled_back_once (tid : ThreadId) (s s' : State) : Prop :=
  exists c, connections (pool s') !! tid = Some c /\
            count (is_rollback_on c) (events_since s s') = 1%nat /\
            count is_rollback (events_since s s') = 1%nat /\
            count is_commit (events_since s s') = 0%nat.

(** What [reopen()] calls before it asks for a new cursor, when the close()
    of the cursor it holds returns. *)
Definition closed_first (old : option CursorId) (closing : list Event) : Prop :=
  match old with
  | Some cur0 => exists r, closing = [Ev (CursorAttr cur0 "close" []) (Returned r)]
  | None => closing = []
  end.

(** The failure a unit of work ends with, when [e] was raised inside its
    try block and the rollback in the except block ended with [rr]. *)
Definition reraised (e : Exn) (rr : Reply) : Exn :=
  match rr with
  | Raised e' => e'
  | Returned _ => e
  end.

(** The cursor that the last returning [cursor()] call of [evs] created. *)
Fixpoint opened (evs : list Event) : option CursorId :=
  match evs with
  | [] => None
  | ev :: rest =>
      match opened rest with
      | Some cur => Some cur
      | None =>
          match ev with
          | Ev (ConnCursor _) (Returned (RCursor cur)) => Some cur
          | _ => None
          end
      end
  end.

(** The cursor a handle holds after the calls [evs] made through it, when
    it held [cur0] before. *)
Definition cursor_after (cur0 : option CursorId) (evs : list Event) : option CursorId :=
  match opened evs with
  | Some cur => Some cur
  | None => cur0
  end.

(** What a handle can do to the state: calls on cursors, and new cursors. *)
Definition handle_run (s s' : State) (evs : list Event) : Prop :=
  pool s' = pool s /\ next_conn (world s') = next_conn (world s) /\
  history s' = history s ++ evs /\
  Forall (fun ev => handle_phase ev = true) evs.

(** ** States of a pool *)

(** Every registered connection was created by the driver, and no two
    workers are registered with the same one. *)
Definition registry_ok (s : State) : Prop :=
  (forall t c, connections (pool s) !! t = Some c -> (c < next_conn (world s))%nat) /\
  (forall t1 t2 c, connections (pool s) !! t1 = Some c ->
                   connections (pool s) !! t2 = Some c -> t1 = t2).

(** Cursors mentioned in the trace were created by the driver. *)
Definition cursors_ok (s : State) : Prop :=
  forall cur name args r, In (Ev (CursorAttr cur name args) r) (history s) ->
                          (cur < next_cursor (world s))%nat.

Definition cursors_okb (s : State) : bool :=
  forallb (fun ev => match ev with
                     | Ev (CursorAttr cur _ _) _ => Nat.ltb cur (next_cursor (world s))
                     | _ => true
                     end) (history s).

(** The cursor a handle holds, if any, was created by the driver. *)
Definition handle_ok (old : option CursorId) (s : State) : Prop :=
  forall cur0, old = Some cur0 -> (cur0 < next_cursor (world s))%nat.

Definition fresh_world : World := mkWorld [] 0 0 0.

(** The states a pool gets into: built by [__init__], then started, used
    by worker threads and closed in any order. *)
Inductive reachable (drv : Driver) : State -> Prop :=
| reach_init name args kw : reachable drv (__init__ drv name args kw fresh_world)
| reach_exec op s : reachable drv s -> reachable drv (exec drv op s)
| reach_start s : reachable drv s -> reachable drv (snd (start s))
| reach_close s : reachable drv s -> reachable drv (snd (close drv s))
| reach_finalClose s : reachable drv s -> reachable drv (snd (finalClose drv s)).

(** How one operation may change the registry: not at all, by an entry for
    a new connection, by removing an entry, or by clearing it. *)
Definition registry_step (s s' : State) : Prop :=
  (next_conn (world s) <= next_conn (world s'))%nat /\
  (connections (pool s') = connections (pool s)
   \/ (exists tid, connections (pool s) !! tid = None /\
                   connections (pool s') = <[tid := next_conn (world s)]> (connections (pool s)) /\
                   next_conn (world s') = S (next_conn (world s)))
   \/ (exists tid, connections (pool s') = delete tid (connections (pool s)))
   \/ connections (pool s') = ∅).

(** Connection [c] is known to the driver and registered for no worker
    but [t]. *)
Definition owned_by (t : ThreadId) (c : ConnId) (s : State) : Prop :=
  (c < next_conn (world s))%nat /\
  (forall t', connections (pool s) !! t' = Some c -> t' = t).

Definition op_thread (op : Op) : ThreadId :=
  match op with
  | OpConnect tid | OpDisconnect tid _ | OpRunQuery tid _
  | OpRunOperation tid _ | OpRunInteraction tid _ _ => tid
  end.

Definition is_disconnect_of (tid : ThreadId) (op : Op) : bool :=
  match op with
  | OpDisconnect tid' _ => Nat.eqb tid tid'
  | _ => false
  end.

(** ** Drivers and pools used in examples *)

Definition no_kw : Keywords := mkKeywords None None None None [].

Definition one_row (name : string) : Value :=
  if String.eqb name "fetchall" then VRows [[PInt 1]] else VScalar PNone.

(** A driver on which nothing raises; [fetchall()] yields the row [(1,)]. *)
Definition quiet : Driver :=
  mkDriver (Some "2.0") 1
           (fun _ _ => None)
           (fun _ _ name _ => one_row name).

(** A driver on which exactly the calls selected by [bad] raise. *)
Definition failing (bad : Call -> option Exn) : Driver :=
  mkDriver (Some "2.0") 1
           (fun _ c => bad c)
           (fun _ _ name _ => one_row name).

(** [SELECT 1] fails in execute(). *)
Definition bad_execute : Driver :=
  failing (fun c => match c with
                    | CursorAttr _ name _ =>
                        if String.eqb name "execute" then Some (DriverError 1) else None
                    | _ => None
                    end).

(** execute() fails, and then rollback() fails too. *)
Definition bad_execute_rollback : Driver :=
  failing (fun c => match c with
                    | CursorAttr _ name _ =>
                        if String.eqb name "execute" then Some (DriverError 1) else None
                    | ConnRollback _ => Some (DriverError 2)
                    | _ => None
                    end).

(** commit() fails. *)
Definition bad_commit : Driver :=
  failing (fun c => match c with
                    | ConnCommit _ => Some (DriverError 3)
                    | _ => None
                    end).

(** The [cp_openfun] hook fails. *)
Definition bad_hook : Driver :=
  failing (fun c => match c with
                    | OpenFun _ _ => Some (DriverError 4)
                    | _ => None
                    end).


(** The driver's connect fails. *)
Definition bad_connect : Driver :=
  failing (fun c => match c with
                    | DbConnect _ _ => Some (DriverError 6)
                    | _ => None
                    end).

Definition select1 : list PyVal := [PStr "SELECT 1"].

(** An interaction that runs one statement and returns what it fetched. *)
Definition fetch_one (args : list PyVal) : Interaction :=
  Attr "execute" select1 (fun r1 =>
    match r1 with
    | Err e => Raise e
    | Ok _ =>
        Attr "fetchall" [] (fun r2 =>
          match r2 with
          | Err e => Raise e
          | Ok rows => Return rows
          end)
    end).

(** An interaction that raises at once. *)
Definition value_error (args : list PyVal) : Interaction :=
  Raise (PyException "ValueError").

Definition new_pool (drv : Driver) (kw : Keywords) : State :=
  __init__ drv "sqlite" [PStr "db"] kw fresh_world.

Definition pool0 : State := new_pool quiet no_kw.

(** A pool after [start()], in which worker 7 has connected. *)
Definition in_service (drv : Driver) : State :=
  snd (connect drv 7 (snd (start (new_pool drv no_kw)))).

(** A pool configured with a [cp_openfun] hook. *)
Definition hooked (drv : Driver) : State :=
  new_pool drv (mkKeywords None None None (Some 9%nat) []).

(** What other workers do in between. *)
Definition other_work : list Op :=
  [OpRunQuery 8 select1; OpRunInteraction 7 fetch_one []; OpDisconnect 8 (Some 1%nat)].

(** The pool in service, after that work. *)
Definition busy : State := exec_all quiet other_work (in_service quiet).

(** A handle on connection 0 that holds cursor 1. *)
Definition handle0 : Transaction := mkTransaction 0 (Some 1%nat).

(** ** Pickling the pool *)

(** The dict that [__getstate__] returns. *)
Record PickledState : Type := mkPickled {
  st_dbapiName : string;
  st_noisy : bool;
  st_min : Z;
  st_max : Z;
  st_connargs : list PyVal;
  st_connkw : Keywords
}.

Definition __getstate__ (self : ConnectionPool) : PickledState :=
  mkPickled (dbapiName self) (noisy self) (min self) (max self)
            (connargs self) (connkw self).

Section Pickling.

Variable drv : Driver.

(** The body of [__init__] on an object whose attributes [noisy], [min]
    and [max] read as [noisy0], [min0] and [max0] before it runs: the class
    attributes for a new object, the entries of [__dict__] after
    [__setstate__] has replaced it. *)
Definition init_body (noisy0 : bool) (min0 max0 : Z)
    (dbapiName : string) (connargs : list PyVal) (connkw : Keywords) (w : World) : State :=
  let w := if decide (apilevel drv = Some "2.0") then w
           else record_event (Ev (LogMsgCall NotCompliant) (Returned RNone)) w in
  let w := if (threadsafety drv <? 1)%Z
           then record_event (Ev (LogMsgCall NotThreadSafe) (Returned RNone)) w
           else w in
  let min1 := match cp_min connkw with Some v => v | None => min0 end in
  let max1 := match cp_max connkw with Some v => v | None => max0 end in
  let noisy1 := match cp_noisy connkw with Some v => v | None => noisy0 end in
  let openfun1 := cp_openfun connkw in
  let stored_kw := mkKeywords None None None None (driver_kw connkw) in
  let min2 := Z.min min1 max1 in
  let max2 := Z.max min2 max1 in
  let w := ThreadPool min2 max2 w in
  let (t, w) := callWhenRunning w in
  mkState (mkPool dbapiName noisy1 min2 max2 false openfun1 connargs stored_kw
                  ∅ (Some t) Unset) w.

(** [self.__dict__ = state], then
    [self.__init__(self.dbapiName, *self.connargs, **self.connkw)]: the
    state has no [openfun], [running], [connections], [startID] or
    [shutdownID], so the first two read as the class attributes and the
    others are what [__init__] assigns. *)
Definition __setstate__ (state : PickledState) (w : World) : State :=
  init_body (st_noisy state) (st_min state) (st_max state)
            (st_dbapiName state) (st_connargs state) (st_connkw state) w.

End Pickling.

(** ** Escaping text *)

(** A Python 2 [str]: a sequence of bytes. *)
Abbreviation str := (list Ascii.ascii) (only parsing).

Definition quote : Ascii.ascii := "'"%char.
Definition backslash : Ascii.ascii := "092"%char.

Fixpoint starts_with (old s : list Ascii.ascii) : bool :=
  match old, s with
  | [], _ => true
  | a :: old', c :: s' => Ascii.eqb a c && starts_with old' s'
  | _ :: _, [] => false
  end.

(** [s.replace(old, new)] for a non-empty [old]: the occurrences of [old]
    are taken from left to right and do not overlap; [skip] is what is left
    to pass over of the occurrence just replaced. *)
Fixpoint replace_from (old new : list Ascii.ascii) (skip : nat) (s : list Ascii.ascii)
    : list Ascii.ascii :=
  match s with
  | [] => []
  | c :: rest =>
      match skip with
      | S k => replace_from old new k rest
      | O =>
          if starts_with old s
          then new ++ replace_from old new (length old - 1) rest
          else c :: replace_from old new 0 rest
      end
  end.

(** [s.replace(old, new)]; an empty [old] matches before every character
    and at the end. *)
Definition replace (old new s : list Ascii.ascii) : list Ascii.ascii :=
  match old with
  | [] => flat_map (fun c => new ++ [c]) s ++ new
  | _ :: _ => replace_from old new 0 s
  end.

(** [text.replace(quote, quote quote).replace(backslash, backslash backslash)] *)
Definition safe (text : list Ascii.ascii) : list Ascii.ascii :=
  replace [backslash] [backslash; backslash] (replace [quote] [quote; quote] text).

(** What [safe] makes of one character. *)
Definition escape (c : Ascii.ascii) : list Ascii.ascii :=
  if Ascii.eqb c quote then [quote; quote]
  else if Ascii.eqb c backslash then [backslash; backslash]
  else [c].

Definition special (c : Ascii.ascii) : bool :=
  Ascii.eqb c quote || Ascii.eqb c backslash.

(** In [s] every quote and every backslash stands in a pair of its own. *)
Fixpoint paired (s : list Ascii.ascii) : bool :=
  match s with
  | [] => true
  | c :: rest =>
      if special c then
        match rest with
        | c' :: rest' => Ascii.eqb c c' && paired rest'
        | [] => false
        end
      else paired rest
  end.

(** ** More on the states of a pool *)

(** Between two pool objects, what is neither the registry nor the
    configuration. *)
Definition same_runtime (p p' : ConnectionPool) : Prop :=
  running p' = running p /\ startID p' = startID p /\ shutdownID p' = shutdownID p.

(** The options of the pool are not among the stored keywords, and the
    bounds are in order. *)
Definition config_ok (p : ConnectionPool) : Prop :=
  (min p <= max p)%Z /\
  cp_min (connkw p) = None /\ cp_max (connkw p) = None /\
  cp_noisy (connkw p) = None /\ cp_openfun (connkw p) = None.

(** Every call of the driver's connect in [evs] was made with the
    arguments stored in [p]. *)
Definition opened_as_configured (p : ConnectionPool) (evs : list Event) : Prop :=
  forall a k r, In (Ev (DbConnect a k) r) evs -> a = connargs p /\ k = connkw p.

Definition is_log (ev : Event) : bool :=
  match ev with Ev (LogMsgCall _) _ => true | _ => false end.

Definition is_hook (ev : Event) : bool :=
  match ev with Ev (OpenFun _ _) _ => true | _ => false end.

(** What a unit of work may record once it has its connection. *)
Definition unit_phase (ev : Event) : bool :=
  match ev with
  | Ev (CursorAttr _ _ _) _ | Ev (ConnCursor _) _ | Ev (ConnCommit _) _
  | Ev (ConnRollback _) _ | Ev (Interact _) _ => true
  | _ => false
  end.

Definition is_disconnect (op : Op) : bool :=
  match op with
  | OpDisconnect _ _ => true
  | _ => false
  end.

(** One step in the life of a pool. *)
Inductive Step : Type :=
| StepExec (op : Op)
| StepStart
| StepClose
| StepFinalClose.

Definition step (drv : Driver) (st : Step) (s : State) : State :=
  match st with
  | StepExec op => exec drv op s
  | StepStart => snd (start s)
  | StepClose => snd (close drv s)
  | StepFinalClose => snd (finalClose drv s)
  end.

Definition steps (drv : Driver) (l : list Step) (s : State) : State :=
  fold_left (fun s st => step drv st s) l s.

(** A [cursor()] call that returned a cursor. *)
Definition is_cursor_ok (ev : Event) : bool :=
  match ev with Ev (ConnCursor _) (Returned _) => true | _ => false end.

Definition is_remove_trigger (ev : Event) : bool :=
  match ev with Ev (RemoveTrigger _) _ => true | _ => false end.

(** What the operations of the worker threads may record. *)
Definition worker_phase (ev : Event) : bool :=
  connect_phase ev || unit_phase ev || is_close ev.

(** Whether the thread pool is started after the calls [evs], when it was
    [started] before them. *)
Fixpoint threads_started (started : bool) (evs : list Event) : bool :=
  match evs with
  | [] => started
  | Ev ThreadPoolStart _ :: rest => threads_started true rest
  | Ev ThreadPoolStop _ :: rest => threads_started false rest
  | _ :: rest => threads_started started rest
  end.

(** No call in [evs] starts a thread pool that is started. *)
Fixpoint never_restarted (started : bool) (evs : list Event) : bool :=
  match evs with
  | [] => true
  | Ev ThreadPoolStart _ :: rest => negb started && never_restarted true rest
  | Ev ThreadPoolStop _ :: rest => never_restarted false rest
  | _ :: rest => never_restarted started rest
  end.

(** The unit of work reported a failure. *)
Definition failed {A} (d : Deferred A) : Prop := exists e, d = Errback e.

(** The triggers that [close()] has to remove. *)
Definition pending_triggers (p : ConnectionPool) : list TriggerId :=
  match shutdownID p with
  | Assigned (Some t) => [t]
  | _ => []
  end ++
  match startID p with
  | Some t => [t]
  | None => []
  end.

(** The calls of cursor methods in [evs]. *)
Definition cursor_events (evs : list Event) : list Event :=
  List.filter (fun ev => match ev with Ev (CursorAttr _ _ _) _ => true | _ => false end) evs.

(** [evs] are the calls [calls] (method name and arguments) made on the
    cursor [cur] one after the other, each after the one before has
    returned, up to the last of them or to the first that raises. *)
Fixpoint called_in_order (cur : CursorId) (calls : list (string * list PyVal))
    (evs : list Event) : Prop :=
  match calls, evs with
  | [], [] => True
  | (name, args) :: calls', Ev c r :: evs' =>
      c = CursorAttr cur name args /\
      match r with
      | Returned _ => called_in_order cur calls' evs'
      | Raised _ => evs' = []
      end
  | _, _ => False
  end.

(** A step after which the registry still has the entry of thread [t]. *)
Definition keeps_entry (t : ThreadId) (st : Step) : bool :=
  match st with
  | StepExec op => negb (is_disconnect_of t op)
  | StepStart => true
  | StepClose | StepFinalClose => false
  end.


(** What happens in a pool between two calls of a worker. *)
Definition life : list Step :=
  [StepExec (OpRunQuery 8 select1); StepStart; StepExec (OpRunInteraction 7 fetch_one []);
   StepExec (OpDisconnect 8 (Some 1%nat))].

Definition text (s : string) : list Ascii.ascii := list_ascii_of_string s.

(** * Proofs *)

(** ** Traces *)

Lemma events_since_app (s s' : State) (evs : list Event) :
  history s' = history s ++ evs -> events_since s s' = evs.
Proof. unfold events_since. intros ->. by rewrite drop_app_length. Qed.

Lemma count_app (p : Event -> bool) (l1 l2 : list Event) :
  count p (l1 ++ l2) = (count p l1 + count p l2)%nat.
Proof.
  induction l1 as [|ev l1 IH]; simpl; [done|].
  destruct (p ev); simpl; lia.
Qed.

Lemma count_none (p q : Event -> bool) (evs : list Event) :
  Forall (fun ev => q ev = true) evs ->
  (forall ev, q ev = true -> p ev = false) ->
  count p evs = 0%nat.
Proof.
  intros Hall Hpq. induction Hall as [|ev evs Hq _ IH]; simpl; [done|].
  by rewrite (Hpq ev Hq).
Qed.

Lemma history_emit (ev : Event) (s : State) : history (emit ev s) = history s ++ [ev].
Proof. done. Qed.

Section Proofs.

Variable drv : Driver.

(** ** The primitives *)

Lemma cursor_attr_cases (cur : CursorId) (name : string) (args : list PyVal) (s : State) :
  (exists e, cursor_attr drv cur name args s
             = (Err e, emit (Ev (CursorAttr cur name args) (Raised e)) s)) \/
  (exists v, cursor_attr drv cur name args s
             = (Ok v, emit (Ev (CursorAttr cur name args) (Returned (RValue v))) s)).
Proof.
  unfold cursor_attr, call. destruct (raises drv (history s) _) as [e|]; [left; eauto|right].
  eexists. by destruct s.
Qed.

(** ** connect *)

Lemma connect_registered (tid : ThreadId) (s : State) (c : ConnId) :
  connections (pool s) !! tid = Some c -> connect drv tid s = (Ok c, s).
Proof. intros H. unfold connect, bind, get_pool. by rewrite H. Qed.

Lemma connect_cases (tid : ThreadId) (s : State) :
  connections (pool s) !! tid = None ->
  let p := pool s in
  let c := next_conn (world s) in
  let open := DbConnect (connargs p) (connkw p) in
  exists s',
    (exists e, connect drv tid s = (Err e, s') /\
               history s' = history s ++ connect_log p ++ [Ev open (Raised e)] /\
               pool s' = p /\ next_conn (world s') = c /\
               next_cursor (world s') = next_cursor (world s))
    \/ (exists h e, openfun p = Some h /\
               connect drv tid s = (Err e, s') /\
               history s' = history s ++ connect_log p
                              ++ [Ev open (Returned (RConn c)); Ev (OpenFun h c) (Raised e)] /\
               pool s' = p /\ next_conn (world s') = S c /\
               next_cursor (world s') = next_cursor (world s))
    \/ (connect drv tid s = (Ok c, s') /\
        history s' = history s ++ connect_log p
                       ++ Ev open (Returned (RConn c)) :: hook_returned p c /\
        pool s' = set_connections (insert tid c) p /\ next_conn (world s') = S c /\
        next_cursor (world s') = next_cursor (world s)).
Proof.
  intros Hnone p c open.
  unfold connect, bind, get_pool. rewrite Hnone.
  unfold when, log_msg, runtime, dbapi_connect, call_none, call, modify_pool, ret,
    connect_log, hook_returned.
  destruct s as [p0 [tr nc ncur nt]]. simpl in *. subst p c open.
  destruct (noisy p0); simpl;
    (destruct (raises drv _ (DbConnect _ _)) as [e|]; simpl;
     [eexists; left; eexists; split; [reflexivity|];
      unfold history; simpl; rewrite <- ?app_assoc; done|]);
    (destruct (openfun p0) as [h|]; simpl;
     [destruct (raises drv _ (OpenFun _ _)) as [e|]; simpl;
      [eexists; right; left; do 2 eexists; split; [reflexivity|split; [reflexivity|]];
       unfold history; simpl; rewrite <- ?app_assoc; done|]|]);
    eexists; right; right; (split; [reflexivity|]);
    unfold history; simpl; rewrite <- ?app_assoc; done.
Qed.

(** ** _close and disconnect *)

Lemma _close_cases (c : ConnId) (s : State) :
  exists s' r,
    history s' = history s ++ close_log (pool s) ++ [Ev (ConnClose c) r] /\
    pool s' = pool s /\ next_conn (world s') = next_conn (world s) /\
    next_cursor (world s') = next_cursor (world s) /\
    ((exists e, r = Raised e /\ _close drv c s = (Err e, s')) \/
     (r = Returned RNone /\ _close drv c s = (Ok tt, s'))).
Proof.
  unfold _close, bind, get_pool, when, log_msg, runtime, conn_close, call_none, call, ret,
    close_log.
  destruct s as [p0 [tr nc ncur nt]]; simpl.
  destruct (noisy p0); simpl;
    (destruct (raises drv _ (ConnClose c)) as [e|]; simpl;
     do 2 eexists; (split; [|split; [|split; [|split;
       [|first [left; eexists; split; reflexivity | right; split; reflexivity]]]]]);
     unfold history; simpl; rewrite <- ?app_assoc; done).
Qed.

Lemma disconnect_wrong (tid : ThreadId) (conn : option ConnId) (s : State) :
  conn <> connections (pool s) !! tid ->
  disconnect drv tid conn s = (Err (PyException "wrong connection for thread"), s).
Proof. intros H. unfold disconnect, bind, get_pool. by rewrite decide_False. Qed.

Lemma disconnect_none (tid : ThreadId) (s : State) :
  connections (pool s) !! tid = None -> disconnect drv tid None s = (Ok tt, s).
Proof. intros H. unfold disconnect, bind, get_pool. by rewrite decide_True. Qed.

Lemma disconnect_own (tid : ThreadId) (c : ConnId) (s : State) :
  connections (pool s) !! tid = Some c ->
  exists s' r,
    history s' = history s ++ close_log (pool s) ++ [Ev (ConnClose c) r] /\
    next_conn (world s') = next_conn (world s) /\
    next_cursor (world s') = next_cursor (world s) /\
    ((exists e, r = Raised e /\ disconnect drv tid (Some c) s = (Err e, s') /\
                pool s' = pool s) \/
     (r = Returned RNone /\ disconnect drv tid (Some c) s = (Ok tt, s') /\
      pool s' = set_connections (delete tid) (pool s))).
Proof.
  intros H.
  assert (Hd : disconnect drv tid (Some c) s
               = (_close drv c ;; modify_pool (set_connections (delete tid))) s).
  { unfold disconnect, bind at 1, get_pool. by rewrite decide_True. }
  rewrite Hd. unfold bind, modify_pool.
  destruct (_close_cases c s) as (s1 & r & Hh & Hp & Hn & Hc & [(e & -> & Hcl)|[-> Hcl]]);
    rewrite Hcl.
  - exists s1, (Raised e). repeat (split; [done|]). left. by exists e.
  - exists (mkState (set_connections (delete tid) (pool s1)) (world s1)), (Returned RNone).
    repeat (split; [done|]). right. by rewrite Hp.
Qed.

(** ** What connect leaves behind *)

Lemma connect_facts (tid : ThreadId) (s : State) (r : Result ConnId) (s1 : State) :
  connect drv tid s = (r, s1) ->
  exists evs,
    history s1 = history s ++ evs /\
    Forall (fun ev => connect_phase ev = true) evs /\
    (forall c, r = Ok c -> connections (pool s1) !! tid = Some c) /\
    (forall e, r = Err e -> pool s1 = pool s).
Proof.
  intros Hc. destruct (connections (pool s) !! tid) as [c|] eqn:Hl.
  - rewrite (connect_registered _ _ _ Hl) in Hc. injection Hc as <- <-.
    exists []. rewrite app_nil_r.
    split; [done|]. split; [constructor|]. split; [by intros ? [= <-]|done].
  - destruct (connect_cases tid s Hl) as
      (s' & [(e & Heq & Hh & Hp & _)|[(h & e & _ & Heq & Hh & Hp & _)|(Heq & Hh & Hp & _)]]);
      rewrite Heq in Hc; injection Hc as <- <-; eexists; (split; [exact Hh|]);
      (split; [|split; [|by intros ? ?]]).
    + unfold connect_log. destruct (noisy (pool s)); repeat constructor.
    + done.
    + unfold connect_log. destruct (noisy (pool s)); repeat constructor.
    + done.
    + unfold connect_log, hook_returned.
      destruct (noisy (pool s)), (openfun (pool s)); repeat constructor.
    + intros c [= <-]. rewrite Hp. simpl. apply lookup_insert_eq.
Qed.

Lemma connect_phase_counts (evs : list Event) :
  Forall (fun ev => connect_phase ev = true) evs ->
  count is_commit evs = 0%nat /\ count is_rollback evs = 0%nat /\
  (forall c, count (is_commit_on c) evs = 0%nat) /\
  (forall c, count (is_rollback_on c) evs = 0%nat) /\
  count is_fetchall evs = 0%nat.
Proof.
  intros H.
  assert (Hn : forall p, (forall ev, connect_phase ev = true -> p ev = false) ->
                         count p evs = 0%nat) by (intros p; by apply count_none).
  split; [|split; [|split; [|split]]]; intros; apply Hn; by intros [[] ?].
Qed.

(** ** Units of work *)

(** One step of a run: decide whether the next call on the driver raises,
    and name what a cursor attribute yields. *)
Ltac oracle :=
  match goal with
  | |- context [raises ?d ?h ?c] =>
      let e := fresh "e" in
      destruct (raises d h c) as [e|]; simpl;
      repeat match goal with
        | |- context [answer ?d ?h ?c ?n ?a] =>
            let v := fresh "v" in generalize (answer d h c n a); intros v
        end
  end.

Ltac unfold_unit :=
  cbv beta iota delta
    [runQuery runOperation runInteraction _deferToThread
     _runQuery _runOperation _runInteraction try_except_reraise bind get_pool ret raise
     conn_cursor conn_commit conn_rollback cursor_attr call_none call
     Transaction__init__ reopen __getattr__ call_interaction].

(** The calls recorded since [s], once the trace of the final state is
    known to be [(history s ++ pre) ++ ...]. *)
Ltac since :=
  match goal with
  | |- context [events_since ?s ?s'] =>
      let H := fresh "Hsince" in
      eassert (H : events_since s s' = _);
      [ apply events_since_app; unfold history; simpl; rewrite <- ?app_assoc; simpl;
        reflexivity
      | rewrite ?H ]
  end.

Lemma opened_app (l1 l2 : list Event) :
  opened (l1 ++ l2) = cursor_after (opened l1) l2.
Proof.
  unfold cursor_after. induction l1 as [|ev l1 IH]; simpl.
  - by destruct (opened l2).
  - rewrite IH. destruct (opened l2); [done|]. by destruct (opened l1).
Qed.

Lemma cursor_after_app (cur0 : option CursorId) (l1 l2 : list Event) :
  cursor_after cur0 (l1 ++ l2) = cursor_after (cursor_after cur0 l1) l2.
Proof.
  unfold cursor_after at 1 2. rewrite opened_app. unfold cursor_after.
  destruct (opened l2); [done|]. by destruct (opened l1).
Qed.

Lemma cursor_after_is_Some (cur0 : option CursorId) (evs : list Event) :
  is_Some cur0 -> is_Some (cursor_after cur0 evs).
Proof. unfold cursor_after. destruct (opened evs); eauto. Qed.

Lemma handle_run_refl (s : State) : handle_run s s [].
Proof. repeat split; [by rewrite app_nil_r|constructor]. Qed.

Lemma handle_run_trans (s1 s2 s3 : State) (evs1 evs2 : list Event) :
  handle_run s1 s2 evs1 -> handle_run s2 s3 evs2 -> handle_run s1 s3 (evs1 ++ evs2).
Proof.
  intros (Hp1 & Hn1 & Hh1 & Ha1) (Hp2 & Hn2 & Hh2 & Ha2).
  split; [congruence|]. split; [congruence|].
  rewrite Hh2, Hh1, app_assoc. split; [done|]. by apply Forall_app.
Qed.

Lemma reopen_facts (trans : Transaction) (s : State) (r : Result Transaction) (s' : State) :
  reopen drv trans s = (r, s') ->
  exists evs,
    handle_run s s' evs /\
    match r with
    | Ok t' => _connection t' = _connection trans /\
               _cursor t' = opened evs /\ is_Some (opened evs)
    | Err _ => opened evs = None
    end.
Proof.
  unfold reopen, bind, ret, cursor_attr, conn_cursor, call.
  destruct s as [p [tr nc ncur nt]], trans as [conn [cur|]]; simpl;
    repeat oracle; intros [= <- <-]; eexists;
    (split; [split; [done|split; [done|]]; unfold history; simpl;
             rewrite <- ?app_assoc; split; [reflexivity|repeat constructor]|]);
    simpl; eauto.
Qed.

Lemma __getattr___facts (trans : Transaction) (name : string) (args : list PyVal)
    (s : State) (r : Result Value) (s' : State) :
  __getattr__ drv trans name args s = (r, s') ->
  exists evs, handle_run s s' evs /\ opened evs = None.
Proof.
  unfold __getattr__, raise, cursor_attr, call.
  destruct s as [p [tr nc ncur nt]], trans as [conn [cur|]]; simpl;
    repeat oracle; intros [= <- <-];
    try (exists []; split; [apply handle_run_refl|done]);
    (eexists; split; [split; [done|split; [done|]]; unfold history; simpl;
                      split; [reflexivity|repeat constructor]|done]).
Qed.

Lemma interact_facts (f : Interaction) :
  forall (trans : Transaction) (s : State) (r : Result (Value * Transaction)) (s' : State),
    interact drv f trans s = (r, s') ->
    exists evs,
      handle_run s s' evs /\
      (forall v t', r = Ok (v, t') ->
         _connection t' = _connection trans /\
         _cursor t' = cursor_after (_cursor trans) evs).
Proof.
  induction f as [v|e|name args k IH|k IH]; intros trans s r s'; simpl.
  - intros [= <- <-]. exists []. split; [apply handle_run_refl|]. by intros ? ? [= <- <-].
  - intros [= <- <-]. exists []. split; [apply handle_run_refl|]. done.
  - destruct (__getattr__ drv trans name args s) as [r1 s1] eqn:Hg. intros Hk.
    apply __getattr___facts in Hg as (evs1 & Hr1 & Ho1).
    apply IH in Hk as (evs2 & Hr2 & Hk2).
    exists (evs1 ++ evs2). split; [by eapply handle_run_trans|].
    intros v t' Heq. destruct (Hk2 v t' Heq) as [Hc Hcur]. split; [done|].
    rewrite Hcur, cursor_after_app. unfold cursor_after at 3. by rewrite Ho1.
  - destruct (reopen drv trans s) as [[t1|e1] s1] eqn:Hr; intros Hk;
      apply reopen_facts in Hr as (evs1 & Hr1 & Hr2);
      apply IH in Hk as (evs2 & Hk1 & Hk2);
      exists (evs1 ++ evs2); (split; [by eapply handle_run_trans|]);
      intros v t' Heq; destruct (Hk2 v t' Heq) as [Hc Hcur].
    + destruct Hr2 as (Hc1 & Hcur1 & [cur1 Hs1]). split; [congruence|].
      rewrite Hcur, cursor_after_app, Hcur1. unfold cursor_after at 3. by rewrite Hs1.
    + split; [done|]. rewrite Hcur, cursor_after_app. unfold cursor_after at 3.
      by rewrite Hr2.
Qed.

Lemma handle_phase_counts (evs : list Event) :
  Forall (fun ev => handle_phase ev = true) evs ->
  count is_commit evs = 0%nat /\ count is_rollback evs = 0%nat /\
  (forall c, count (is_commit_on c) evs = 0%nat) /\
  (forall c, count (is_rollback_on c) evs = 0%nat).
Proof.
  intros H.
  assert (Hn : forall p, (forall ev, handle_phase ev = true -> p ev = false) ->
                         count p evs = 0%nat) by (intros p; by apply count_none).
  split; [|split; [|split]]; intros; apply Hn; by intros [[] ?].
Qed.

(** Start of every unit of work: the worker's connection, or the failure
    of [connect()]. *)
Ltac start_unit tid s :=
  let s1 := fresh "s1" in
  let r := fresh "r" in
  let Hconn := fresh "Hconn" in
  let Hcnt := fresh "Hcnt" in
  destruct (connect drv tid s) as [r s1] eqn:Hconn;
  destruct (connect_facts _ _ _ _ Hconn) as (pre & Hh & Hpre & Hreg & _);
  apply connect_phase_counts in Hpre as Hcnt;
  destruct Hcnt as (Hc1 & Hc2 & Hc3 & Hc4 & Hc5);
  destruct s1 as [p1 [tr1 nc1 ncur1 nt1]]; unfold history in Hh; simpl in Hh; subst tr1;
  destruct r as [c|?]; [specialize (Hreg c eq_refl)|clear Hreg].

Lemma last_app_end (l1 l2 : list Event) (ev : Event) :
  last l2 = Some ev -> last (l1 ++ l2) = Some ev.
Proof. intros H. rewrite last_app. by rewrite H. Qed.

Lemma last_cons_end (l : list Event) (ev0 ev : Event) :
  last l = Some ev -> last (ev0 :: l) = Some ev.
Proof. intros H. rewrite last_cons. by rewrite H. Qed.

Ltac find_last :=
  repeat first [reflexivity | apply last_app_end | apply last_cons_end].

(** Where in a known list of calls a given call is. *)
Ltac in_cases H :=
  repeat match type of H with
    | In _ (_ ++ _) => apply in_app_or in H as [H|H]
    | In _ (_ :: _) => destruct H as [H|H]
    | In _ [] => destruct H
    | In _ ?l => is_var l; exfalso; eapply List.Forall_forall in H; [|eassumption];
                 simpl in H; discriminate
    | Ev _ _ = Ev _ _ => first [discriminate H | inversion H; clear H; subst]
    end.

(** C1. A unit of work that succeeds committed exactly once, on the
    worker's connection, and never rolled back; the Deferred of runQuery
    fires with what the one fetchall() of the run returned. *)
Theorem C1_success_commits_once (tid : ThreadId) (s s' : State) :
  (forall args rows,
     runQuery drv args tid s = (Callback rows, s') ->
     committed_once tid s s' /\
     count is_fetchall (events_since s s') = 1%nat /\
     exists cur, In (Ev (CursorAttr cur "fetchall" []) (Returned (RValue rows)))
                    (events_since s s')) /\
  (forall args u,
     runOperation drv args tid s = (Callback u, s') -> committed_once tid s s') /\
  (forall f args v,
     runInteraction drv f args tid s = (Callback v, s') -> committed_once tid s s').
Proof.
  split; [|split].
  - intros args rows.
    unfold runQuery, _deferToThread, _runQuery, bind at 1.
    start_unit tid s; [|done]. unfold_unit. simpl.
    repeat oracle; try done.
    intros [= <- <-]. unfold committed_once. since. split; [|split].
    + exists c. rewrite !count_app, ?Hc1, ?Hc2, ?Hc3, ?Hc4. simpl. rewrite Nat.eqb_refl. repeat split; [done|lia..].
    + rewrite count_app. simpl. lia.
    + exists ncur1. apply in_or_app. right. simpl. tauto.
  - intros args u.
    unfold runOperation, _deferToThread, _runOperation, bind at 1.
    start_unit tid s; [|done]. unfold_unit. simpl.
    repeat oracle; try done.
    intros [= <- <-]. unfold committed_once. since.
    exists c. rewrite !count_app, ?Hc1, ?Hc2, ?Hc3, ?Hc4. simpl. rewrite Nat.eqb_refl. repeat split; [done|lia..].
  - intros f args v.
    unfold runInteraction, _deferToThread, _runInteraction, bind at 1, get_pool, bind at 1.
    start_unit tid s; [|done]. unfold_unit. simpl.
    oracle; [done|].
    match goal with |- context [interact drv ?f ?t ?s0] =>
      destruct (interact drv f t s0) as [[[v1 t1]|e1] s3] eqn:Hi;
      apply interact_facts in Hi as (evs & (Hp & Hn & Hh & Hall) & Ht)
    end; simpl in *.
    2: { oracle; done. }
    destruct (Ht v1 t1 eq_refl) as [Hconn1 Hcur1]; simpl in Hcur1;
      destruct (cursor_after_is_Some (Some ncur1) evs) as [cur1 Hcur1']; [by eexists|];
      rewrite Hcur1' in Hcur1.
    destruct s3 as [p3 [tr3 nc3 ncur3 nt3]]. unfold history in Hh; simpl in *. subst tr3 p3.
    rewrite Hcur1, Hconn1. simpl. repeat oracle; try done.
    intros [= <- <-]. unfold committed_once. since.
    apply handle_phase_counts in Hall as (Hd1 & Hd2 & Hd3 & Hd4).
    exists c. repeat (rewrite !count_app; simpl).
    rewrite ?Hc1, ?Hc2, ?Hc3, ?Hc4, ?Hd1, ?Hd2, ?Hd3, ?Hd4, Nat.eqb_refl.
    repeat split; [done|simpl; lia..].
Qed.


(** C2 (amended). When the execute or the fetch of runQuery or
    runOperation raises, or the interaction function raises, the unit of
    work rolls back exactly once, on the worker's connection, and never
    commits; the rollback is its last call.  The Deferred fails with that
    same failure when the rollback returns, and with the rollback's own
    failure when the rollback raises. *)
Theorem C2_failure_rolls_back_once (tid : ThreadId) (s s' : State) (e : Exn) :
  (forall args d cur a,
     runQuery drv args tid s = (d, s') ->
     In (Ev (CursorAttr cur "execute" a) (Raised e)) (events_since s s') \/
     In (Ev (CursorAttr cur "fetchall" a) (Raised e)) (events_since s s') ->
     rolled_back_once tid s s' /\
     exists c rr, last (events_since s s') = Some (Ev (ConnRollback c) rr) /\
                  d = Errback (reraised e rr)) /\
  (forall args d cur a,
     runOperation drv args tid s = (d, s') ->
     In (Ev (CursorAttr cur "execute" a) (Raised e)) (events_since s s') ->
     rolled_back_once tid s s' /\
     exists c rr, last (events_since s s') = Some (Ev (ConnRollback c) rr) /\
                  d = Errback (reraised e rr)) /\
  (forall f args d,
     runInteraction drv f args tid s = (d, s') ->
     In (Ev (Interact args) (Raised e)) (events_since s s') ->
     rolled_back_once tid s s' /\
     exists c rr, last (events_since s s') = Some (Ev (ConnRollback c) rr) /\
                  d = Errback (reraised e rr)).
Proof.
  split; [|split].
  - intros args d cur a.
    unfold runQuery, _deferToThread, _runQuery, bind at 1.
    start_unit tid s; unfold_unit; simpl; repeat oracle;
      intros [= <- <-]; unfold rolled_back_once; since; intros [Hin|Hin]; in_cases Hin;
      (split; [exists c; repeat (rewrite !count_app; simpl);
                rewrite ?Hc1, ?Hc2, ?Hc3, ?Hc4, Nat.eqb_refl; repeat split; [done|lia..]
              |do 2 eexists; split; [find_last|reflexivity]]).
  - intros args d cur a.
    unfold runOperation, _deferToThread, _runOperation, bind at 1.
    start_unit tid s; unfold_unit; simpl; repeat oracle;
      intros [= <- <-]; unfold rolled_back_once; since; intros Hin; in_cases Hin;
      (split; [exists c; repeat (rewrite !count_app; simpl);
                rewrite ?Hc1, ?Hc2, ?Hc3, ?Hc4, Nat.eqb_refl; repeat split; [done|lia..]
              |do 2 eexists; split; [find_last|reflexivity]]).
  - intros f args d.
    unfold runInteraction, _deferToThread, _runInteraction, bind at 1, get_pool, bind at 1.
    start_unit tid s; unfold_unit; simpl.
    2: { intros [= <- <-]. unfold rolled_back_once. since. intros Hin. in_cases Hin. }
    oracle.
    { intros [= <- <-]. unfold rolled_back_once. since. intros Hin. in_cases Hin. }
    match goal with |- context [interact drv ?f ?t ?s0] =>
      destruct (interact drv f t s0) as [[[v1 t1]|e1] s3] eqn:Hi;
      apply interact_facts in Hi as (evs & (Hp & Hn & Hh & Hall) & Ht)
    end; simpl in *;
    destruct s3 as [p3 [tr3 nc3 ncur3 nt3]]; unfold history in Hh; simpl in *; subst tr3 p3;
    apply handle_phase_counts in Hall as Hcnt; destruct Hcnt as (Hd1 & Hd2 & Hd3 & Hd4).
    + destruct (Ht v1 t1 eq_refl) as [Hconn1 Hcur1]; simpl in Hcur1;
      destruct (cursor_after_is_Some (Some ncur1) evs) as [cur1 Hcur1']; [by eexists|];
      rewrite Hcur1' in Hcur1.
      rewrite Hcur1, Hconn1. simpl.
      repeat oracle; intros [= <- <-]; unfold rolled_back_once; since; intros Hin; in_cases Hin.
    + repeat oracle; intros [= <- <-]; unfold rolled_back_once; since; intros Hin; in_cases Hin;
      (split; [exists c; repeat (rewrite !count_app; simpl);
                rewrite ?Hc1, ?Hc2, ?Hc3, ?Hc4, ?Hd1, ?Hd2, ?Hd3, ?Hd4, Nat.eqb_refl;
                repeat split; [done|simpl; lia..]
              |do 2 eexists; split; [find_last|reflexivity]]).
Qed.

(** C3 (amended). In runInteraction, when the interaction function returns
    [v], close() is called on the cursor the handle then holds (the last one
    opened in the run) and, if that returns, the connection is committed
    after it; the Deferred fires with [v] when both return, and when close()
    or the commit raises, the connection is rolled back and the Deferred
    fails (with that failure, or with the rollback's own when the rollback
    raises).  When the interaction function raises, the next and last call
    is the rollback: the cursor is not closed, nothing is committed, and the
    Deferred fails in the same way. *)
Theorem C3_interaction_outcomes (tid : ThreadId) (f : list PyVal -> Interaction)
    (args : list PyVal) (s s' : State) (d : Deferred Value) :
  runInteraction drv f args tid s = (d, s') ->
  (forall v,
     In (Ev (Interact args) (Returned (RValue v))) (events_since s s') ->
     exists pre c cur post,
       connections (pool s') !! tid = Some c /\
       opened pre = Some cur /\
       events_since s s' = pre ++ Ev (Interact args) (Returned (RValue v)) :: post /\
       ((exists r1,
           post = [Ev (CursorAttr cur "close" []) (Returned r1);
                   Ev (ConnCommit c) (Returned RNone)] /\
           d = Callback v)
        \/ (exists e rr,
           post = [Ev (CursorAttr cur "close" []) (Raised e);
                   Ev (ConnRollback c) rr] /\
           d = Errback (reraised e rr))
        \/ (exists r1 e rr,
           post = [Ev (CursorAttr cur "close" []) (Returned r1);
                   Ev (ConnCommit c) (Raised e);
                   Ev (ConnRollback c) rr] /\
           d = Errback (reraised e rr)))) /\
  (forall e,
     In (Ev (Interact args) (Raised e)) (events_since s s') ->
     exists pre c rr,
       connections (pool s') !! tid = Some c /\
       events_since s s' = pre ++ [Ev (Interact args) (Raised e); Ev (ConnRollback c) rr] /\
       d = Errback (reraised e rr)).
Proof.
  unfold runInteraction, _deferToThread, _runInteraction, bind at 1, get_pool, bind at 1.
  start_unit tid s; unfold_unit; simpl.
  2: { intros [= <- <-]. since. split; intros ? Hin; in_cases Hin. }
  oracle.
  { intros [= <- <-]. since. split; intros ? Hin; in_cases Hin. }
  match goal with |- context [interact drv ?f ?t ?s0] =>
    destruct (interact drv f t s0) as [[[v1 t1]|e1] s3] eqn:Hi;
    apply interact_facts in Hi as (evs & (Hp & Hn & Hh & Hall) & Ht)
  end; simpl in *;
  destruct s3 as [p3 [tr3 nc3 ncur3 nt3]]; unfold history in Hh; simpl in *; subst tr3 p3.
  - destruct (Ht v1 t1 eq_refl) as [Hconn1 Hcur1]; simpl in Hcur1.
    destruct (cursor_after_is_Some (Some ncur1) evs) as [cur1 Hcur1']; [by eexists|].
    rewrite Hcur1' in Hcur1. rewrite Hcur1, Hconn1. simpl. clear Hconn1 Ht Hcur1.
    assert (Hopened : opened (pre ++ Ev (ConnCursor c) (Returned (RCursor ncur1)) :: evs)
                      = Some cur1).
    { change (Ev (ConnCursor c) (Returned (RCursor ncur1)) :: evs)
        with ([Ev (ConnCursor c) (Returned (RCursor ncur1))] ++ evs).
      rewrite app_assoc, opened_app, opened_app. exact Hcur1'. }
    repeat oracle; intros [= <- <-]; since; (split; intros ? Hin; in_cases Hin);
      exists (pre ++ Ev (ConnCursor c) (Returned (RCursor ncur1)) :: evs), c, cur1;
      eexists; (split; [done|split; [exact Hopened|split;
        [rewrite <- app_assoc; reflexivity|]]]).
    + right; left. by do 2 eexists.
    + right; left. by do 2 eexists.
    + right; right. by do 3 eexists.
    + right; right. by do 3 eexists.
    + left. by eexists.
  - repeat oracle; intros [= <- <-]; since; (split; intros ? Hin; in_cases Hin);
      exists (pre ++ Ev (ConnCursor c) (Returned (RCursor ncur1)) :: evs), c;
      eexists; (split; [done|split; [rewrite <- app_assoc; reflexivity|done]]).
Qed.

(** ** The registry *)

Lemma connect_opens_once (tid : ThreadId) (s : State) :
  connections (pool s) !! tid = None ->
  count is_open (events_since s (snd (connect drv tid s))) = 1%nat.
Proof.
  intros Hnone.
  assert (Hlog : count is_open (connect_log (pool s)) = 0%nat).
  { unfold connect_log. by destruct (noisy (pool s)). }
  destruct (connect_cases tid s Hnone) as
    (s' & [(e & Heq & Hh & _)|[(h & e & _ & Heq & Hh & _)|(Heq & Hh & _)]]);
    rewrite Heq; simpl; rewrite (events_since_app _ _ _ Hh), count_app, Hlog; simpl;
    [done|done|].
  unfold hook_returned. by destruct (openfun (pool s)).
Qed.

(** C4 (amended). connect() returns the connection registered for the
    worker when there is one, and then calls nothing.  Otherwise it calls
    the driver's connect with the stored arguments; when that returns it
    calls the hook, if one is configured, on the new connection; and when
    the hook returned, or none is configured, it stores the connection
    under the worker's identity and returns it.  When the driver's connect
    or the hook raises, the registry is left as it was, so the next
    connect() of that worker calls the driver's connect again. *)
Theorem C4_connect_opens_or_reuses (tid : ThreadId) (s : State) :
  (forall c, connections (pool s) !! tid = Some c -> connect drv tid s = (Ok c, s)) /\
  (connections (pool s) !! tid = None ->
   let p := pool s in
   let c := next_conn (world s) in
   let open := DbConnect (connargs p) (connkw p) in
   exists s',
     (exists e, connect drv tid s = (Err e, s') /\
                events_since s s' = connect_log p ++ [Ev open (Raised e)] /\
                connections (pool s') = connections p)
     \/ (exists h e, openfun p = Some h /\
                connect drv tid s = (Err e, s') /\
                events_since s s' = connect_log p
                                      ++ [Ev open (Returned (RConn c));
                                          Ev (OpenFun h c) (Raised e)] /\
                connections (pool s') = connections p)
     \/ (connect drv tid s = (Ok c, s') /\
         events_since s s' = connect_log p
                               ++ Ev open (Returned (RConn c)) :: hook_returned p c /\
         connections (pool s') = <[tid := c]> (connections p))) /\
  (forall e s',
     connections (pool s) !! tid = None ->
     connect drv tid s = (Err e, s') ->
     connections (pool s') !! tid = None /\
     count is_open (events_since s' (snd (connect drv tid s'))) = 1%nat).
Proof.
  split; [apply connect_registered|]. split.
  - intros Hnone p c open.
    destruct (connect_cases tid s Hnone) as
      (s' & [(e & Heq & Hh & Hp & _)|[(h & e & Hf & Heq & Hh & Hp & _)|(Heq & Hh & Hp & _)]]);
      exists s'; apply events_since_app in Hh.
    + left. exists e. by rewrite Hp.
    + right; left. exists h, e. by rewrite Hp.
    + right; right. by rewrite Hp.
  - intros e s' Hnone Hfail.
    assert (Hnone' : connections (pool s') !! tid = None).
    { destruct (connect_facts _ _ _ _ Hfail) as (_ & _ & _ & _ & Hp).
      by rewrite (Hp e eq_refl). }
    split; [done|]. by apply connect_opens_once.
Qed.

(** C7 (amended). disconnect(conn) raises the ownership error exactly when
    [conn] is not what the registry lookup for the worker gives, [None]
    when the worker has no entry: so, for a worker without entry, it raises
    for every connection, and disconnect(None) returns and does nothing.
    When [conn] is the worker's registered connection, it is closed, and
    the entry is removed when close() returns; when close() raises, the
    entry stays. *)
Theorem C7_disconnect_ownership (tid : ThreadId) (conn : option ConnId) (s : State) :
  (conn <> connections (pool s) !! tid ->
   disconnect drv tid conn s = (Err (PyException "wrong connection for thread"), s)) /\
  (conn = None -> connections (pool s) !! tid = None ->
   disconnect drv tid conn s = (Ok tt, s)) /\
  (forall c, conn = Some c -> connections (pool s) !! tid = Some c ->
     exists s',
       (disconnect drv tid conn s = (Ok tt, s') /\
        events_since s s' = close_log (pool s) ++ [Ev (ConnClose c) (Returned RNone)] /\
        connections (pool s') = delete tid (connections (pool s)))
       \/ (exists e, disconnect drv tid conn s = (Err e, s') /\
                     events_since s s' = close_log (pool s) ++ [Ev (ConnClose c) (Raised e)] /\
                     connections (pool s') = connections (pool s))).
Proof.
  split; [apply disconnect_wrong|]. split.
  - intros -> Hnone. by apply disconnect_none.
  - intros c -> Hown.
    destruct (disconnect_own tid c s Hown) as
      (s' & r & Hh & _ & _ & [(e & -> & Heq & Hp)|(-> & Heq & Hp)]);
      exists s'; apply events_since_app in Hh.
    + right. exists e. by rewrite Hp.
    + left. by rewrite Hp.
Qed.

Lemma connect_frame (tid : ThreadId) (s : State) :
  only_entry_changed tid s (snd (connect drv tid s)).
Proof.
  unfold only_entry_changed, same_config.
  destruct (connections (pool s) !! tid) as [c|] eqn:Hl.
  - by rewrite (connect_registered _ _ _ Hl).
  - destruct (connect_cases tid s Hl) as
      (s' & [(e & Heq & _ & Hp & _)|[(h & e & _ & Heq & _ & Hp & _)|(Heq & _ & Hp & _)]]);
      rewrite Heq; simpl; rewrite Hp; try done.
    split; [|done]. intros t Ht. simpl. by apply lookup_insert_ne.
Qed.

Lemma disconnect_frame (tid : ThreadId) (conn : option ConnId) (s : State) :
  only_entry_changed tid s (snd (disconnect drv tid conn s)).
Proof.
  unfold only_entry_changed, same_config.
  destruct (decide (conn = connections (pool s) !! tid)) as [Heq|Hne].
  - destruct conn as [c|].
    + destruct (disconnect_own tid c s (eq_sym Heq)) as
        (s' & r & _ & _ & _ & [(e & _ & Hd & Hp)|(_ & Hd & Hp)]);
        rewrite Hd; simpl; rewrite Hp; try done.
      split; [|done]. intros t Ht. simpl. by apply lookup_delete_ne.
    + by rewrite disconnect_none.
  - by rewrite disconnect_wrong.
Qed.

(** C10. connect() and disconnect(conn) run by worker [tid] leave the
    registry entry of every other worker, and the pool's dbapiName, min,
    max, noisy, openfun, connargs and connkw, as they were. *)
Theorem C10_connect_disconnect_frame (tid : ThreadId) (s : State) :
  only_entry_changed tid s (snd (connect drv tid s)) /\
  (forall conn, only_entry_changed tid s (snd (disconnect drv tid conn s))).
Proof. split; [apply connect_frame|intros; apply disconnect_frame]. Qed.

(** ** How the operations change the registry *)

Lemma unit_registry (op : Op) (s s' : State) :
  exec drv op s = s' ->
  match op with
  | OpConnect _ | OpDisconnect _ _ => True
  | _ => pool s' = pool (snd (connect drv (op_thread op) s)) /\
         next_conn (world s') = next_conn (world (snd (connect drv (op_thread op) s)))
  end.
Proof.
  destruct op as [tid|tid conn|tid args|tid args|tid f args]; try done; simpl.
  - unfold runQuery, _deferToThread, _runQuery, bind at 1.
    start_unit tid s; unfold_unit; simpl; repeat oracle; by intros <-.
  - unfold runOperation, _deferToThread, _runOperation, bind at 1.
    start_unit tid s; unfold_unit; simpl; repeat oracle; by intros <-.
  - unfold runInteraction, _deferToThread, _runInteraction, bind at 1, get_pool, bind at 1.
    start_unit tid s; unfold_unit; simpl; [|by intros <-].
    oracle; [by intros <-|].
    match goal with |- context [interact drv ?f ?t ?s0] =>
      destruct (interact drv f t s0) as [[[v1 t1]|e1] s3] eqn:Hi;
      apply interact_facts in Hi as (evs & (Hp & Hn & Hh & Hall) & Ht)
    end; simpl in *.
    + destruct (Ht v1 t1 eq_refl) as [Hconn1 Hcur1]; simpl in Hcur1.
      destruct (cursor_after_is_Some (Some ncur1) evs) as [cur1 Hcur1']; [by eexists|].
      rewrite Hcur1' in Hcur1. rewrite Hcur1, Hconn1. simpl.
      repeat oracle; by intros <-.
    + repeat oracle; by intros <-.
Qed.

Lemma connect_registry_step (tid : ThreadId) (s : State) :
  registry_step s (snd (connect drv tid s)).
Proof.
  unfold registry_step. destruct (connections (pool s) !! tid) as [c|] eqn:Hl.
  - rewrite (connect_registered _ _ _ Hl). simpl. split; [lia|by left].
  - destruct (connect_cases tid s Hl) as
      (s' & [(e & Heq & _ & Hp & Hn & _)|[(h & e & _ & Heq & _ & Hp & Hn & _)
                                         |(Heq & _ & Hp & Hn & _)]]);
      rewrite Heq; simpl; rewrite Hp, Hn; (split; [lia|]); [by left|by left|].
    right; left. exists tid. by simpl.
Qed.

Lemma disconnect_registry_step (tid : ThreadId) (conn : option ConnId) (s : State) :
  registry_step s (snd (disconnect drv tid conn s)).
Proof.
  unfold registry_step.
  destruct (decide (conn = connections (pool s) !! tid)) as [Heq|Hne].
  - destruct conn as [c|].
    + destruct (disconnect_own tid c s (eq_sym Heq)) as
        (s' & r & _ & Hn & _ & [(e & _ & Hd & Hp)|(_ & Hd & Hp)]);
        rewrite Hd; simpl; rewrite Hp, Hn; (split; [lia|]); [by left|].
      right; right; left. by exists tid.
    + rewrite disconnect_none by done. simpl. split; [lia|by left].
  - rewrite disconnect_wrong by done. simpl. split; [lia|by left].
Qed.

Lemma exec_registry_step (op : Op) (s : State) : registry_step s (exec drv op s).
Proof.
  pose proof (unit_registry op s _ eq_refl) as Hu.
  destruct op as [tid|tid conn|tid args|tid args|tid f args];
    [apply connect_registry_step|apply disconnect_registry_step|..];
    simpl op_thread in Hu; destruct Hu as [Hp Hn];
    pose proof (connect_registry_step tid s) as Hc;
    unfold registry_step in *; by rewrite Hp, Hn.
Qed.

Lemma registry_step_ok (s s' : State) :
  registry_step s s' -> registry_ok s -> registry_ok s'.
Proof.
  intros [Hle Hstep] [Hlt Hinj]. unfold registry_ok.
  destruct Hstep as [Heq|[(tid & Hnone & Heq & Hn)|[(tid & Heq)|Heq]]]; rewrite Heq.
  - split; [|done]. intros t c Ht. specialize (Hlt t c Ht). lia.
  - split.
    + intros t c. rewrite lookup_insert. case_decide.
      * intros [= <-]. lia.
      * intros Ht. specialize (Hlt t c Ht). lia.
    + intros t1 t2 c. rewrite !lookup_insert.
      repeat case_decide; subst; try done.
      * intros [= <-] Ht. specialize (Hlt _ _ Ht). lia.
      * intros Ht [= <-]. specialize (Hlt _ _ Ht). lia.
      * apply Hinj.
  - split.
    + intros t c. rewrite lookup_delete. case_decide; [done|].
      intros Ht. specialize (Hlt t c Ht). lia.
    + intros t1 t2 c. rewrite !lookup_delete. repeat case_decide; try done. apply Hinj.
  - split; intros *; by rewrite lookup_empty.
Qed.

Lemma registry_step_owned (t : ThreadId) (c : ConnId) (s s' : State) :
  registry_step s s' -> owned_by t c s -> owned_by t c s'.
Proof.
  intros [Hle Hstep] [Hlt Hown]. unfold owned_by. split; [lia|].
  destruct Hstep as [Heq|[(tid & Hnone & Heq & Hn)|[(tid & Heq)|Heq]]]; rewrite Heq.
  - done.
  - intros t'. rewrite lookup_insert. case_decide; [|apply Hown].
    intros [= <-]. lia.
  - intros t'. rewrite lookup_delete. case_decide; [done|apply Hown].
  - intros t'. by rewrite lookup_empty.
Qed.

Lemma exec_all_owned (t : ThreadId) (c : ConnId) (ops : list Op) (s : State) :
  owned_by t c s -> owned_by t c (exec_all drv ops s).
Proof.
  revert s. induction ops as [|op ops IH]; intros s Hs; [done|].
  simpl. apply IH. eapply registry_step_owned; [apply exec_registry_step|done].
Qed.

Lemma exec_frame (op : Op) (s : State) :
  only_entry_changed (op_thread op) s (exec drv op s).
Proof.
  pose proof (unit_registry op s _ eq_refl) as Hu.
  destruct op as [tid|tid conn|tid args|tid args|tid f args];
    [apply connect_frame|apply disconnect_frame|..];
    simpl op_thread in *; destruct Hu as [Hp Hn];
    pose proof (connect_frame tid s) as Hc;
    unfold only_entry_changed in *; by rewrite Hp.
Qed.

Lemma exec_keeps_entry (t : ThreadId) (c : ConnId) (op : Op) (s : State) :
  is_disconnect_of t op = false ->
  connections (pool s) !! t = Some c ->
  connections (pool (exec drv op s)) !! t = Some c.
Proof.
  intros Hnd Hreg. destruct (decide (op_thread op = t)) as [<-|Hne].
  - pose proof (unit_registry op s _ eq_refl) as Hu.
    destruct op as [tid|tid conn|tid args|tid args|tid f args]; simpl in *.
    + by rewrite (connect_registered _ _ _ Hreg).
    + by rewrite Nat.eqb_refl in Hnd.
    + destruct Hu as [-> _]. by rewrite (connect_registered _ _ _ Hreg).
    + destruct Hu as [-> _]. by rewrite (connect_registered _ _ _ Hreg).
    + destruct Hu as [-> _]. by rewrite (connect_registered _ _ _ Hreg).
  - destruct (exec_frame op s) as [Hother _]. rewrite Hother; [done|congruence].
Qed.

Lemma exec_all_keeps_entry (t : ThreadId) (c : ConnId) (ops : list Op) (s : State) :
  forallb (fun op => negb (is_disconnect_of t op)) ops = true ->
  connections (pool s) !! t = Some c ->
  connections (pool (exec_all drv ops s)) !! t = Some c.
Proof.
  revert s. induction ops as [|op ops IH]; intros s Hops Hreg; [done|].
  simpl in Hops. apply andb_prop in Hops as [Hop Hops].
  simpl. apply IH; [done|]. apply exec_keeps_entry; [|done].
  by destruct (is_disconnect_of t op).
Qed.

(** ** Shutting the pool down *)

Lemma for_each_close (l : list ConnId) :
  forall (s : State) (r : Result unit) (s' : State),
    for_each l (_close drv) s = (r, s') ->
    pool s' = pool s /\ next_conn (world s') = next_conn (world s) /\
    ((r = Ok tt /\ history s' = history s ++ closes (pool s) l) \/
     (exists e before c rest,
        r = Err e /\ l = before ++ c :: rest /\
        history s' = history s ++ closes (pool s) before
                       ++ close_log (pool s) ++ [Ev (ConnClose c) (Raised e)])).
Proof.
  induction l as [|c l IH]; intros s r s'; simpl.
  - intros [= <- <-]. repeat split. left. by rewrite app_nil_r.
  - unfold bind.
    destruct (_close_cases c s) as (s1 & r1 & Hh & Hp & Hn & _ & [(e & -> & Hcl)|[-> Hcl]]);
      rewrite Hcl.
    + intros [= <- <-]. repeat (split; [done|]). right. exists e, [], c, l.
      repeat split. by rewrite Hh.
    + intros Hrest. apply IH in Hrest as (Hp' & Hn' & Hcases).
      split; [congruence|]. split; [congruence|]. rewrite Hp in Hcases.
      destruct Hcases as [[-> Hh']|(e & before & c' & rest & -> & -> & Hh')].
      * left. split; [done|]. rewrite Hh', Hh. unfold closes. simpl.
        by rewrite <- !app_assoc.
      * right. exists e, (c :: before), c', rest. repeat split.
        rewrite Hh', Hh. unfold closes. simpl. by rewrite <- !app_assoc.
Qed.

Lemma finalClose_cases (s : State) (r : Result unit) (s' : State) :
  finalClose drv s = (r, s') ->
  let l := snd <$> map_to_list (connections (pool s)) in
  let stop := Ev ThreadPoolStop (Returned RNone) in
  next_conn (world s') = next_conn (world s) /\
  ((r = Ok tt /\
    pool s' = set_connections (fun _ => ∅) (set_running false (pool s)) /\
    history s' = history s ++ stop :: closes (pool s) l) \/
   (exists e before c rest,
      r = Err e /\ l = before ++ c :: rest /\
      pool s' = set_running false (pool s) /\
      history s' = history s ++ stop :: closes (pool s) before
                     ++ close_log (pool s) ++ [Ev (ConnClose c) (Raised e)])).
Proof.
  intros Hf l stop. unfold finalClose, bind, runtime, modify_pool, get_pool in Hf.
  simpl in Hf.
  match type of Hf with context [for_each ?l0 _ ?s0] =>
    destruct (for_each l0 (_close drv) s0) as [r1 s1] eqn:Hloop
  end.
  apply for_each_close in Hloop as (Hp & Hn & Hcases). simpl in *.
  destruct Hcases as [[-> Hh]|(e & before & c & rest & -> & Hl & Hh)];
    injection Hf as <- <-; simpl; (split; [done|]).
  - left. split; [done|]. split; [by rewrite Hp|].
    unfold history in *. simpl in *. rewrite Hh, <- app_assoc. reflexivity.
  - right. exists e, before, c, rest. repeat split; [done|done|].
    unfold history in *. simpl in *. rewrite Hh, <- app_assoc. reflexivity.
Qed.

Lemma close_unstarted (s : State) :
  shutdownID (pool s) = Unset -> close drv s = (Err (AttributeError "shutdownID"), s).
Proof. intros H. unfold close, bind, get_pool, raise. by rewrite H. Qed.

(** [close()] on a pool whose [shutdownID] is assigned: the triggers are
    removed, then [finalClose()] runs on the same registry. *)
Lemma close_started (s : State) (t0 : option TriggerId) :
  shutdownID (pool s) = Assigned t0 ->
  exists s1 pre,
    close drv s = finalClose drv s1 /\
    history s1 = history s ++ pre /\
    count is_close pre = 0%nat /\
    (forall c, count (is_close_on c) pre = 0%nat) /\
    count is_failed_close pre = 0%nat /\
    connections (pool s1) = connections (pool s) /\
    close_log (pool s1) = close_log (pool s) /\
    next_conn (world s1) = next_conn (world s) /\
    shutdownID (pool s1) = Assigned None /\ startID (pool s1) = None.
Proof.
  intros Hs. unfold close, bind at 1, get_pool. rewrite Hs.
  destruct s as [p w]. simpl in *.
  destruct t0 as [t|], (startID p) as [t'|] eqn:Hst;
    unfold bind, runtime, modify_pool, get_pool, ret; simpl; rewrite ?Hst; simpl.
  - eexists; exists [Ev (RemoveTrigger t) (Returned RNone);
                     Ev (RemoveTrigger t') (Returned RNone)].
    split; [reflexivity|]. unfold history. simpl. rewrite <- app_assoc. by repeat split.
  - eexists; exists [Ev (RemoveTrigger t) (Returned RNone)].
    split; [reflexivity|]. unfold history. simpl. by repeat split.
  - eexists; exists [Ev (RemoveTrigger t') (Returned RNone)].
    split; [reflexivity|]. unfold history. simpl. by repeat split.
  - eexists; exists [].
    split; [reflexivity|]. unfold history. simpl. rewrite app_nil_r. by repeat split.
Qed.

Lemma start_registry_step (s : State) : registry_step s (snd (start s)).
Proof.
  unfold start, bind, get_pool, runtime, new_trigger, modify_pool, ret, registry_step.
  simpl. destruct (running (pool s)); simpl; (split; [lia|by left]).
Qed.

Lemma finalClose_registry_step (s : State) : registry_step s (snd (finalClose drv s)).
Proof.
  destruct (finalClose drv s) as [r s'] eqn:Hf.
  apply finalClose_cases in Hf as (Hn & [(_ & Hc & _)|(e & before & c & rest & _ & _ & Hc & _)]);
    unfold registry_step; simpl; rewrite Hn, Hc; (split; [lia|]); [by do 3 right|by left].
Qed.

Lemma close_registry_step (s : State) : registry_step s (snd (close drv s)).
Proof.
  destruct (shutdownID (pool s)) as [|t0] eqn:Hs.
  - rewrite close_unstarted by done. simpl. split; [lia|by left].
  - destruct (close_started s t0 Hs) as (s1 & pre & -> & _ & _ & _ & _ & Hc & _ & Hn & _).
    pose proof (finalClose_registry_step s1) as H. unfold registry_step in *.
    by rewrite <- Hc, <- Hn.
Qed.

Lemma reachable_registry_ok (s : State) : reachable drv s -> registry_ok s.
Proof.
  induction 1 as [name args kw|op s _ IH|s _ IH|s _ IH|s _ IH].
  - unfold registry_ok, __init__; simpl. split; intros *; by rewrite lookup_empty.
  - eapply registry_step_ok; [apply exec_registry_step|done].
  - eapply registry_step_ok; [apply start_registry_step|done].
  - eapply registry_step_ok; [apply close_registry_step|done].
  - eapply registry_step_ok; [apply finalClose_registry_step|done].
Qed.

Lemma steps_snoc (l : list Step) (st : Step) (s : State) :
  steps drv (l ++ [st]) s = step drv st (steps drv l s).
Proof. unfold steps. by rewrite fold_left_app. Qed.

Lemma step_registry_step (st : Step) (s : State) : registry_step s (step drv st s).
Proof.
  destruct st; simpl;
    [apply exec_registry_step|apply start_registry_step
    |apply close_registry_step|apply finalClose_registry_step].
Qed.

Lemma steps_owned (t : ThreadId) (c : ConnId) (l : list Step) (s : State) :
  owned_by t c s -> owned_by t c (steps drv l s).
Proof.
  intros H. induction l as [|st l IH] using rev_ind; [done|].
  rewrite steps_snoc. eapply registry_step_owned; [apply step_registry_step|done].
Qed.

Lemma start_connections (s : State) :
  connections (pool (snd (start s))) = connections (pool s).
Proof.
  unfold start, bind, get_pool, runtime, new_trigger, modify_pool, ret. simpl.
  by destruct (running (pool s)).
Qed.

Lemma steps_keep_entry (t : ThreadId) (c : ConnId) (l : list Step) (s : State) :
  forallb (keeps_entry t) l = true ->
  connections (pool s) !! t = Some c ->
  connections (pool (steps drv l s)) !! t = Some c.
Proof.
  induction l as [|st l IH] using rev_ind; intros Hl Hreg; [done|].
  rewrite steps_snoc. rewrite forallb_app in Hl.
  apply andb_true_iff in Hl as [Hl Hst]. simpl in Hst. rewrite andb_true_r in Hst.
  specialize (IH Hl Hreg). destruct st as [op| | |]; simpl in *; try discriminate.
  - apply exec_keeps_entry; [by apply negb_true_iff|done].
  - by rewrite start_connections.
Qed.

(** C5 (amended). From a state the pool can be in: a connect() of worker
    [t] that returned [c], followed by any steps in the life of the pool
    (operations of worker threads, start(), close(), finalClose()), is
    followed by a connect() of [t] returning the same [c] if in between
    [t] did not call disconnect and the pool was not closed; and a
    connect() of any other worker never returns [c], whatever the steps. *)
Theorem C5_thread_affinity (s0 s1 : State) (t : ThreadId) (c : ConnId) (l : list Step) :
  reachable drv s0 ->
  connect drv t s0 = (Ok c, s1) ->
  (forall c' s3,
     forallb (keeps_entry t) l = true ->
     connect drv t (steps drv l s1) = (Ok c', s3) -> c' = c) /\
  (forall t' c' s3,
     t' <> t ->
     connect drv t' (steps drv l s1) = (Ok c', s3) -> c' <> c).
Proof.
  intros Hreach Hconn.
  destruct (connect_facts _ _ _ _ Hconn) as (_ & _ & _ & Hreg & _).
  specialize (Hreg c eq_refl). split.
  - intros c' s3 Hl Hagain.
    rewrite (connect_registered _ _ _ (steps_keep_entry t c l s1 Hl Hreg)) in Hagain.
    by injection Hagain as <- _.
  - intros t' c' s3 Hne Hother ->.
    assert (Hok1 : registry_ok s1).
    { eapply registry_step_ok; [|apply reachable_registry_ok, Hreach].
      replace s1 with (snd (connect drv t s0)) by (by rewrite Hconn).
      apply connect_registry_step. }
    assert (Hown1 : owned_by t c s1).
    { destruct Hok1 as [Hlt Hinj]. split; [by eapply Hlt|].
      intros t'' Ht''. by eapply Hinj. }
    pose proof (steps_owned t c l s1 Hown1) as Hown2.
    assert (Hown3 : owned_by t c s3).
    { replace s3 with (snd (connect drv t' (steps drv l s1))) by (by rewrite Hother).
      eapply registry_step_owned; [apply connect_registry_step|done]. }
    destruct (connect_facts _ _ _ _ Hother) as (_ & _ & _ & Hreg' & _).
    destruct Hown3 as [_ Hown3]. apply Hne, Hown3, Hreg'. done.
Qed.

Lemma close_log_counts (p : ConnectionPool) :
  (forall c, count (is_close_on c) (close_log p) = 0%nat) /\
  count is_close (close_log p) = 0%nat /\
  count is_failed_close (close_log p) = 0%nat.
Proof. unfold close_log. by destruct (noisy p). Qed.









(** ** Construction of the pool *)

(** C8 (amended). For every cp_min and cp_max (3 and 5 when not given),
    [__init__] leaves min = the smaller of the two and max = cp_max, so
    min <= max; it checks nothing else, and 0 < min holds exactly when both
    values are positive. *)
Theorem C8_min_max_reconciled (name : string) (args : list PyVal) (kw : Keywords) (w : World) :
  let p := pool (__init__ drv name args kw w) in
  let lo := default 3%Z (cp_min kw) in
  let hi := default 5%Z (cp_max kw) in
  min p = Z.min lo hi /\ max p = hi /\ (min p <= max p)%Z /\
  ((0 < min p)%Z <-> (0 < lo)%Z /\ (0 < hi)%Z).
Proof.
  unfold __init__. simpl. destruct (cp_min kw), (cp_max kw); simpl; lia.
Qed.

(** ** The transaction handle *)

Lemma reopen_cases (trans : Transaction) (s : State) (r : Result Transaction) (s' : State) :
  reopen drv trans s = (r, s') ->
  let conn := _connection trans in
  let cur := next_cursor (world s) in
  (exists closing,
     closed_first (_cursor trans) closing /\
     ((r = Ok (mkTransaction conn (Some cur)) /\
       history s' = history s ++ closing ++ [Ev (ConnCursor conn) (Returned (RCursor cur))]) \/
      (exists e, r = Err e /\
                 history s' = history s ++ closing ++ [Ev (ConnCursor conn) (Raised e)])))
  \/ (exists cur0 e, _cursor trans = Some cur0 /\ r = Err e /\
                     history s' = history s ++ [Ev (CursorAttr cur0 "close" []) (Raised e)]).
Proof.
  unfold reopen, bind, ret, cursor_attr, conn_cursor, call.
  destruct s as [p [tr nc ncur nt]], trans as [conn [cur0|]]; simpl;
    repeat oracle; intros [= <- <-]; unfold history; simpl; rewrite <- ?app_assoc.
  - right. by do 2 eexists.
  - left. eexists. split; [by eexists|]. right. by eexists.
  - left. eexists. split; [by eexists|]. by left.
  - left. exists []. split; [done|]. right. by eexists.
  - left. exists []. split; [done|]. by left.
Qed.

Lemma cursor_closed_app (l1 l2 : list Event) (cur : CursorId) :
  cursor_closed (l1 ++ l2) cur = cursor_closed l1 cur || cursor_closed l2 cur.
Proof. unfold cursor_closed. apply existsb_app. Qed.

Lemma cursors_ok_fresh (s : State) :
  cursors_ok s -> cursor_closed (history s) (next_cursor (world s)) = false.
Proof.
  intros Hok. apply not_true_is_false. intros Hc.
  apply existsb_exists in Hc as ([[] [|r]] & Hin & Hev); try done.
  apply andb_prop in Hev as [Heq _]. apply Nat.eqb_eq in Heq.
  apply Hok in Hin. lia.
Qed.

Lemma cursors_okb_ok (s : State) : cursors_okb s = true -> cursors_ok s.
Proof.
  intros Hb cur name args r Hin. unfold cursors_okb in Hb.
  rewrite forallb_forall in Hb. specialize (Hb _ Hin). simpl in Hb.
  by apply Nat.ltb_lt.
Qed.

Lemma reopen_opens (trans trans' : Transaction) (s s' : State) :
  cursors_ok s -> handle_ok (_cursor trans) s ->
  reopen drv trans s = (Ok trans', s') ->
  exists cur, _cursor trans' = Some cur /\ cursor_closed (history s') cur = false.
Proof.
  intros Hok Hh Hre.
  destruct (reopen_cases _ _ _ _ Hre)
    as [(closing & Hcl & [[[= ->] ->]|(e & [=] & _)])|(cur0 & e & _ & [=] & _)].
  exists (next_cursor (world s)). split; [done|].
  rewrite !cursor_closed_app, cursors_ok_fresh by done. simpl.
  rewrite orb_false_r. unfold closed_first in Hcl.
  destruct (_cursor trans) as [cur0|]; [|by rewrite Hcl].
  destruct Hcl as [r ->]. simpl. specialize (Hh cur0 eq_refl).
  destruct (Nat.eqb_spec (next_cursor (world s)) cur0); [lia|done].
Qed.

(** C9 (amended). Construction opens a cursor on the connection at once
    and reopen() first closes the cursor the handle holds, if any, then opens
    a new one on the same connection: when either returns, the handle holds
    a cursor, which is not closed.  Every name the handle does not define
    itself is forwarded unchanged to that cursor, close() included: after a
    close() made through the handle, the handle holds a closed cursor, and
    goes on forwarding to it, until reopen() is called. *)
Theorem C9_handle_cursor (s : State) :
  (forall p conn r s',
     Transaction__init__ drv p conn s = (r, s') ->
     let cur := next_cursor (world s) in
     (r = Ok (mkTransaction conn (Some cur)) /\
      events_since s s' = [Ev (ConnCursor conn) (Returned (RCursor cur))]) \/
     (exists e, r = Err e /\ events_since s s' = [Ev (ConnCursor conn) (Raised e)])) /\
  (forall trans r s',
     reopen drv trans s = (r, s') ->
     let conn := _connection trans in
     let cur := next_cursor (world s) in
     (exists closing,
        closed_first (_cursor trans) closing /\
        ((r = Ok (mkTransaction conn (Some cur)) /\
          events_since s s' = closing ++ [Ev (ConnCursor conn) (Returned (RCursor cur))]) \/
         (exists e, r = Err e /\
                    events_since s s' = closing ++ [Ev (ConnCursor conn) (Raised e)])))
     \/ (exists cur0 e, _cursor trans = Some cur0 /\ r = Err e /\
                        events_since s s' = [Ev (CursorAttr cur0 "close" []) (Raised e)])) /\
  (forall trans cur name args,
     _cursor trans = Some cur ->
     __getattr__ drv trans name args s = cursor_attr drv cur name args s) /\
  (cursors_ok s ->
   (forall p conn trans s',
      Transaction__init__ drv p conn s = (Ok trans, s') ->
      exists cur, _cursor trans = Some cur /\ cursor_closed (history s') cur = false) /\
   (forall trans trans' s',
      handle_ok (_cursor trans) s ->
      reopen drv trans s = (Ok trans', s') ->
      exists cur, _cursor trans' = Some cur /\ cursor_closed (history s') cur = false)) /\
  (forall trans cur args v s',
     _cursor trans = Some cur ->
     __getattr__ drv trans "close" args s = (Ok v, s') ->
     cursor_closed (history s') cur = true).
Proof.
  split; [|split; [|split; [|split]]].
  - intros p conn r s' Hinit cur. unfold Transaction__init__ in Hinit.
    destruct (reopen_cases _ _ _ _ Hinit)
      as [(closing & Hcl & [[-> Hh]|(e & -> & Hh)])|(cur0 & e & [=] & _)];
      simpl in Hcl; subst closing; apply events_since_app in Hh; [by left|right; eauto].
  - intros trans r s' Hre conn cur.
    destruct (reopen_cases _ _ _ _ Hre)
      as [(closing & Hcl & [[-> Hh]|(e & -> & Hh)])|(cur0 & e & Hc & -> & Hh)];
      apply events_since_app in Hh.
    + left. exists closing. split; [done|]. by left.
    + left. exists closing. split; [done|]. right. eauto.
    + right. eauto.
  - intros trans cur name args Hc. unfold __getattr__. by rewrite Hc.
  - intros Hok. split.
    + intros p conn trans s' Hinit. unfold Transaction__init__ in Hinit.
      eapply reopen_opens; [done| |exact Hinit]. by intros ?.
    + intros trans trans' s' Hh Hre. by eapply reopen_opens.
  - intros trans cur args v s' Hc. unfold __getattr__. rewrite Hc.
    destruct (cursor_attr_cases cur "close" args s) as [(e & ->)|(v' & ->)]; [done|].
    intros [= <- <-]. rewrite history_emit, cursor_closed_app. simpl.
    by rewrite Nat.eqb_refl, orb_true_r.
Qed.

(** ** More on the operations *)

Lemma handle_unit_phase (evs : list Event) :
  Forall (fun ev => handle_phase ev = true) evs ->
  Forall (fun ev => unit_phase ev = true) evs.
Proof. intros H. eapply Forall_impl; [exact H|]. by intros [[] ?]. Qed.

Ltac all_unit_phase :=
  repeat first
    [ apply List.Forall_nil
    | apply List.Forall_cons; [reflexivity|]
    | apply Forall_app; split
    | apply handle_unit_phase; assumption ].

(** What a unit of work records after [connect()] is of the unit phase. *)
Lemma unit_events (tid : ThreadId) (s : State) :
  let s1 := snd (connect drv tid s) in
  (forall args, exists post,
     history (snd (runQuery drv args tid s)) = history s1 ++ post /\
     Forall (fun ev => unit_phase ev = true) post) /\
  (forall args, exists post,
     history (snd (runOperation drv args tid s)) = history s1 ++ post /\
     Forall (fun ev => unit_phase ev = true) post /\
     count is_fetchall post = 0%nat) /\
  (forall f args, exists post,
     history (snd (runInteraction drv f args tid s)) = history s1 ++ post /\
     Forall (fun ev => unit_phase ev = true) post).
Proof.
  intros s1. subst s1. split; [|split].
  - intros args. unfold runQuery, _deferToThread, _runQuery, bind at 1.
    destruct (connect drv tid s) as [[c|e] [p1 [tr1 nc1 ncur1 nt1]]]; simpl;
      [|exists []; by rewrite app_nil_r].
    unfold_unit; simpl; repeat oracle; simpl; eexists;
      (split; [unfold history; simpl; rewrite <- ?app_assoc; reflexivity|all_unit_phase]).
  - intros args. unfold runOperation, _deferToThread, _runOperation, bind at 1.
    destruct (connect drv tid s) as [[c|e] [p1 [tr1 nc1 ncur1 nt1]]]; simpl;
      [|exists []; by rewrite app_nil_r].
    unfold_unit; simpl; repeat oracle; simpl; eexists;
      (split; [unfold history; simpl; rewrite <- ?app_assoc; reflexivity|]);
      (split; [all_unit_phase|reflexivity]).
  - intros f args.
    unfold runInteraction, _deferToThread, _runInteraction, bind at 1, get_pool, bind at 1.
    destruct (connect drv tid s) as [[c|e] [p1 [tr1 nc1 ncur1 nt1]]]; simpl;
      [|exists []; by rewrite app_nil_r].
    unfold_unit; simpl. oracle.
    { eexists. split; [unfold history; simpl; reflexivity|all_unit_phase]. }
    match goal with |- context [interact drv ?f ?t ?s0] =>
      destruct (interact drv f t s0) as [[[v1 t1]|e1] s3] eqn:Hi;
      apply interact_facts in Hi as (evs & (Hp & Hn & Hh & Hall) & Ht)
    end; simpl in *;
    destruct s3 as [p3 [tr3 nc3 ncur3 nt3]]; unfold history in Hh; simpl in *; subst tr3 p3.
    + destruct (Ht v1 t1 eq_refl) as [Hconn1 Hcur1]; simpl in Hcur1.
      destruct (cursor_after_is_Some (Some ncur1) evs) as [cur1 Hcur1']; [by eexists|].
      rewrite Hcur1' in Hcur1. rewrite Hcur1, Hconn1. simpl.
      repeat oracle; simpl; eexists;
        (split; [unfold history; simpl; rewrite <- ?app_assoc; reflexivity|all_unit_phase]).
    + repeat oracle; simpl; eexists;
        (split; [unfold history; simpl; rewrite <- ?app_assoc; reflexivity|all_unit_phase]).
Qed.

Lemma unit_phase_counts (p : ConnectionPool) (evs : list Event) :
  Forall (fun ev => unit_phase ev = true) evs ->
  count is_open evs = 0%nat /\ count is_hook evs = 0%nat /\
  count is_close evs = 0%nat /\ count is_log evs = 0%nat /\
  opened_as_configured p evs.
Proof.
  intros H.
  assert (Hn : forall q, (forall ev, unit_phase ev = true -> q ev = false) ->
                         count q evs = 0%nat) by (intros q; by apply count_none).
  repeat (split; [apply Hn; by intros [[] ?]|]).
  intros a k r Hin. eapply List.Forall_forall in Hin; [|exact H]. done.
Qed.

Lemma opened_as_configured_app (p : ConnectionPool) (l1 l2 : list Event) :
  opened_as_configured p l1 -> opened_as_configured p l2 ->
  opened_as_configured p (l1 ++ l2).
Proof. intros H1 H2 a k r Hin. apply in_app_or in Hin as [Hin|Hin]; eauto. Qed.

Ltac no_open :=
  let Hin := fresh "Hin" in
  intros ? ? ? Hin; simpl in Hin;
  repeat (destruct Hin as [Hin|Hin]; [discriminate Hin|]); destruct Hin.

Lemma connect_log_counts (p : ConnectionPool) :
  count is_open (connect_log p) = 0%nat /\ count is_hook (connect_log p) = 0%nat /\
  count is_close (connect_log p) = 0%nat /\
  count is_log (connect_log p) = (if noisy p then 1 else 0)%nat /\
  opened_as_configured p (connect_log p).
Proof.
  unfold connect_log. destruct (noisy p); (do 4 (split; [done|])); no_open.
Qed.

Lemma close_log_more (p : ConnectionPool) :
  count is_open (close_log p) = 0%nat /\ count is_hook (close_log p) = 0%nat /\
  count is_log (close_log p) = (if noisy p then 1 else 0)%nat /\
  opened_as_configured p (close_log p).
Proof.
  unfold close_log. destruct (noisy p); (do 3 (split; [done|])); no_open.
Qed.

(** What [connect()] records. *)
Lemma connect_counts (tid : ThreadId) (s : State) :
  let evs := events_since s (snd (connect drv tid s)) in
  let p := pool s in
  (count is_open evs <= 1)%nat /\
  (count is_hook evs <= count is_open evs)%nat /\
  (is_Some (connections p !! tid) -> evs = []) /\
  count is_close evs = 0%nat /\
  count is_log evs = (if noisy p then count is_open evs else 0)%nat /\
  opened_as_configured p evs.
Proof.
  intros evs p. subst evs.
  destruct (connections (pool s) !! tid) as [c|] eqn:Hl.
  - rewrite (connect_registered _ _ _ Hl). simpl.
    rewrite events_since_app with (evs := []) by (by rewrite app_nil_r). simpl.
    split; [lia|]. split; [lia|]. split; [done|]. split; [done|].
    split; [by destruct (noisy p)|no_open].
  - destruct (connect_log_counts p) as (Ho & Hk & Hc & Hg & Ha).
    assert (Hstored : forall r l, (forall a k r', ~ In (Ev (DbConnect a k) r') l) ->
              opened_as_configured p
                (connect_log p ++ Ev (DbConnect (connargs p) (connkw p)) r :: l)).
    { intros r l Hl'. apply opened_as_configured_app; [done|].
      intros a k r' [[= <- <- _]|Hin]; [done|]. by apply Hl' in Hin. }
    destruct (connect_cases tid s Hl) as
      (s' & [(e & Heq & Hh & _)|[(h & e & Hf & Heq & Hh & _)|(Heq & Hh & _)]]);
      rewrite Heq; simpl; rewrite (events_since_app _ _ _ Hh);
      fold p; rewrite !count_app, Ho, Hk, Hc, Hg; simpl.
    + split; [lia|]. split; [lia|].
      split; [intros [x Hx]; unfold p in Hx; congruence|]. split; [done|].
      split; [destruct (noisy p); lia|]. apply Hstored. by intros ? ? ? [].
    + split; [lia|]. split; [lia|].
      split; [intros [x Hx]; unfold p in Hx; congruence|]. split; [done|].
      split; [destruct (noisy p); lia|]. apply Hstored. by intros ? ? ? [[=]|[]].
    + unfold hook_returned. fold p. destruct (openfun p) as [h|]; simpl;
        (split; [lia|]; split; [lia|];
         split; [intros [x Hx]; unfold p in Hx; congruence|]; split; [done|];
         split; [destruct (noisy p); lia|]; apply Hstored).
      * by intros ? ? ? [[=]|[]].
      * by intros ? ? ? [].
Qed.

(** What [disconnect(conn)] records. *)
Lemma disconnect_counts (tid : ThreadId) (conn : option ConnId) (s : State) :
  exists evs,
    history (snd (disconnect drv tid conn s)) = history s ++ evs /\
    count is_open evs = 0%nat /\ count is_hook evs = 0%nat /\
    (count is_close evs <= 1)%nat /\
    count is_log evs = (if noisy (pool s) then count is_close evs else 0)%nat /\
    opened_as_configured (pool s) evs.
Proof.
  assert (Hnil : history s = history s ++ [] /\
                 count is_open [] = 0%nat /\ count is_hook [] = 0%nat /\
                 (count is_close [] <= 1)%nat /\
                 count is_log [] = (if noisy (pool s) then count is_close [] else 0)%nat /\
                 opened_as_configured (pool s) []).
  { rewrite app_nil_r. do 3 (split; [done|]). split; [simpl; lia|].
    split; [by destruct (noisy (pool s))|no_open]. }
  destruct (decide (conn = connections (pool s) !! tid)) as [Heq|Hne].
  - destruct conn as [c|].
    + destruct (close_log_more (pool s)) as (Ho & Hk & Hg & Ha).
      destruct (close_log_counts (pool s)) as (_ & Hc & _).
      destruct (disconnect_own tid c s (eq_sym Heq)) as
        (s' & r & Hh & _ & _ & [(e & _ & Hd & _)|(_ & Hd & _)]);
        rewrite Hd; simpl; eexists; (split; [exact Hh|]);
        rewrite !count_app, Ho, Hk, Hg, Hc; simpl;
        (split; [done|]; split; [done|]; split; [lia|];
         split; [destruct (noisy (pool s)); lia|]);
        (apply opened_as_configured_app; [done|no_open]).
    + rewrite disconnect_none by done. by exists [].
  - rewrite disconnect_wrong by done. by exists [].
Qed.

Lemma connect_runtime (tid : ThreadId) (s : State) :
  same_runtime (pool s) (pool (snd (connect drv tid s))).
Proof.
  unfold same_runtime. destruct (connections (pool s) !! tid) as [c|] eqn:Hl.
  - by rewrite (connect_registered _ _ _ Hl).
  - destruct (connect_cases tid s Hl) as
      (s' & [(e & Heq & _ & Hp & _)|[(h & e & _ & Heq & _ & Hp & _)|(Heq & _ & Hp & _)]]);
      rewrite Heq; simpl; by rewrite Hp.
Qed.

Lemma disconnect_runtime (tid : ThreadId) (conn : option ConnId) (s : State) :
  same_runtime (pool s) (pool (snd (disconnect drv tid conn s))).
Proof.
  unfold same_runtime.
  destruct (decide (conn = connections (pool s) !! tid)) as [Heq|Hne].
  - destruct conn as [c|].
    + destruct (disconnect_own tid c s (eq_sym Heq)) as
        (s' & r & _ & _ & _ & [(e & _ & Hd & Hp)|(_ & Hd & Hp)]);
        rewrite Hd; simpl; by rewrite Hp.
    + by rewrite disconnect_none.
  - by rewrite disconnect_wrong.
Qed.

Lemma exec_runtime (op : Op) (s : State) :
  same_runtime (pool s) (pool (exec drv op s)).
Proof.
  pose proof (unit_registry op s _ eq_refl) as Hu.
  destruct op as [tid|tid conn|tid args|tid args|tid f args];
    [apply connect_runtime|apply disconnect_runtime|..];
    simpl op_thread in Hu; destruct Hu as [Hp _]; rewrite Hp; apply connect_runtime.
Qed.

(** What one operation of a worker records. *)
Lemma exec_counts (op : Op) (s : State) :
  exists evs,
    history (exec drv op s) = history s ++ evs /\
    (count is_open evs <= 1)%nat /\
    (count is_hook evs <= count is_open evs)%nat /\
    (is_disconnect op = false -> is_Some (connections (pool s) !! op_thread op) ->
     count is_open evs = 0%nat) /\
    (count is_close evs <= 1)%nat /\
    (is_disconnect op = false -> count is_close evs = 0%nat) /\
    count is_log evs
    = (if noisy (pool s) then count is_open evs + count is_close evs else 0)%nat /\
    opened_as_configured (pool s) evs.
Proof.
  assert (Hconnect : forall tid post,
            history (exec drv op s) = history (snd (connect drv tid s)) ++ post ->
            Forall (fun ev => unit_phase ev = true) post ->
            op_thread op = tid -> is_disconnect op = false ->
            exists evs,
              history (exec drv op s) = history s ++ evs /\
              (count is_open evs <= 1)%nat /\
              (count is_hook evs <= count is_open evs)%nat /\
              (is_disconnect op = false -> is_Some (connections (pool s) !! op_thread op) ->
               count is_open evs = 0%nat) /\
              (count is_close evs <= 1)%nat /\
              (is_disconnect op = false -> count is_close evs = 0%nat) /\
              count is_log evs
              = (if noisy (pool s) then count is_open evs + count is_close evs else 0)%nat /\
              opened_as_configured (pool s) evs).
  { intros tid post Hh Hpost <- Hnd.
    destruct (connect drv (op_thread op) s) as [rc s1] eqn:Hc.
    destruct (connect_facts _ _ _ _ Hc) as (evs1 & Hh1 & _).
    pose proof (connect_counts (op_thread op) s) as Hcounts. rewrite Hc in Hcounts.
    cbn [snd] in Hcounts, Hh. rewrite (events_since_app _ _ _ Hh1) in Hcounts.
    destruct Hcounts as (Ho & Hk & Hreg & Hcl & Hg & Ha).
    destruct (unit_phase_counts (pool s) post Hpost) as (Po & Pk & Pc & Pg & Pa).
    exists (evs1 ++ post). rewrite Hh, Hh1, app_assoc. split; [done|].
    rewrite !count_app, Po, Pk, Pc, Pg, Hcl.
    split; [lia|]. split; [lia|]. split; [intros _ Hs; by rewrite (Hreg Hs)|].
    split; [lia|]. split; [done|].
    split; [rewrite Hg; destruct (noisy (pool s)); lia|].
    by apply opened_as_configured_app. }
  destruct (unit_events (op_thread op) s) as (Hq & Ho & Hi).
  destruct op as [tid|tid conn|tid args|tid args|tid f args]; simpl op_thread in *.
  - apply (Hconnect tid []); [by rewrite app_nil_r|constructor|done|done].
  - destruct (disconnect_counts tid conn s) as (evs & Hh & Po & Pk & Pc & Pg & Pa).
    exists evs. simpl. rewrite Po, Pk. split; [done|]. split; [lia|]. split; [lia|].
    split; [done|]. split; [done|]. split; [done|]. by split.
  - destruct (Hq args) as (post & Hh & Hpost). by apply (Hconnect tid post).
  - destruct (Ho args) as (post & Hh & Hpost & _). by apply (Hconnect tid post).
  - destruct (Hi f args) as (post & Hh & Hpost). by apply (Hconnect tid post).
Qed.

(** ** The life of a pool *)

Lemma same_config_refl (p : ConnectionPool) : same_config p p.
Proof. by repeat split. Qed.

Lemma same_config_trans (p1 p2 p3 : ConnectionPool) :
  same_config p1 p2 -> same_config p2 p3 -> same_config p1 p3.
Proof.
  intros (H1 & H2 & H3 & H4 & H5 & H6 & H7) (G1 & G2 & G3 & G4 & G5 & G6 & G7).
  repeat split; congruence.
Qed.

Lemma closes_counts (p : ConnectionPool) (l : list ConnId) :
  count is_open (closes p l) = 0%nat /\ count is_hook (closes p l) = 0%nat /\
  count is_close (closes p l) = length l /\
  count is_log (closes p l) = (if noisy p then length l else 0)%nat /\
  opened_as_configured p (closes p l).
Proof.
  destruct (close_log_more p) as (Ho & Hk & Hg & Ha).
  destruct (close_log_counts p) as (_ & Hc & _).
  induction l as [|c l (IHo & IHk & IHc & IHg & IHa)].
  - do 3 (split; [done|]). split; [by destruct (noisy p)|no_open].
  - change (closes p (c :: l))
      with ((close_log p ++ [Ev (ConnClose c) (Returned RNone)]) ++ closes p l).
    rewrite !count_app, Ho, Hk, Hg, Hc, IHo, IHk, IHc, IHg. simpl.
    do 3 (split; [done|]). split; [destruct (noisy p); lia|].
    apply opened_as_configured_app; [|done].
    apply opened_as_configured_app; [done|no_open].
Qed.

Lemma finalClose_counts (s : State) :
  exists evs,
    history (snd (finalClose drv s)) = history s ++ evs /\
    count is_open evs = 0%nat /\ count is_hook evs = 0%nat /\
    count is_log evs = (if noisy (pool s) then count is_close evs else 0)%nat /\
    opened_as_configured (pool s) evs /\
    same_config (pool s) (pool (snd (finalClose drv s))).
Proof.
  destruct (finalClose drv s) as [res s'] eqn:Hf. simpl.
  destruct (close_log_more (pool s)) as (Ho & Hk & Hg & Ha).
  destruct (close_log_counts (pool s)) as (_ & Hc & _).
  apply finalClose_cases in Hf
    as (_ & [(_ & Hp & Hh)|(e & before & c & rest & _ & _ & Hp & Hh)]);
    eexists; (split; [exact Hh|]); rewrite Hp.
  - destruct (closes_counts (pool s) (snd <$> map_to_list (connections (pool s))))
      as (Co & Ck & Cc & Cg & Ca).
    simpl. rewrite Co, Ck, Cc, Cg. do 2 (split; [done|]).
    split; [by destruct (noisy (pool s))|]. split; [|by repeat split].
    intros a k r0 [[=]|Hin]. by apply Ca in Hin.
  - destruct (closes_counts (pool s) before) as (Co & Ck & Cc & Cg & Ca).
    simpl. rewrite !count_app, Co, Ck, Cc, Cg, Ho, Hk, Hg, Hc. simpl.
    do 2 (split; [done|]). split; [destruct (noisy (pool s)); lia|].
    split; [|by repeat split].
    intros a k r0 [[=]|Hin]. revert a k r0 Hin.
    apply opened_as_configured_app; [done|].
    apply opened_as_configured_app; [done|no_open].
Qed.

Lemma close_prefix (s : State) (t0 : option TriggerId) :
  shutdownID (pool s) = Assigned t0 ->
  exists s1 pre,
    close drv s = finalClose drv s1 /\
    history s1 = history s ++ pre /\
    same_config (pool s) (pool s1) /\
    count is_open pre = 0%nat /\ count is_hook pre = 0%nat /\
    count is_close pre = 0%nat /\ count is_log pre = 0%nat /\
    opened_as_configured (pool s) pre.
Proof.
  intros Hs. unfold close, bind at 1, get_pool. rewrite Hs.
  destruct s as [p w]. simpl in *.
  destruct t0 as [t|], (startID p) as [t'|] eqn:Hst;
    unfold bind, runtime, modify_pool, get_pool, ret; simpl; rewrite ?Hst; simpl.
  - eexists; exists [Ev (RemoveTrigger t) (Returned RNone);
                     Ev (RemoveTrigger t') (Returned RNone)].
    split; [reflexivity|]. unfold history. simpl. rewrite <- app_assoc.
    split; [done|]. split; [by repeat split|]. do 4 (split; [done|]). no_open.
  - eexists; exists [Ev (RemoveTrigger t) (Returned RNone)].
    split; [reflexivity|]. unfold history. simpl.
    split; [done|]. split; [by repeat split|]. do 4 (split; [done|]). no_open.
  - eexists; exists [Ev (RemoveTrigger t') (Returned RNone)].
    split; [reflexivity|]. unfold history. simpl.
    split; [done|]. split; [by repeat split|]. do 4 (split; [done|]). no_open.
  - eexists; exists [].
    split; [reflexivity|]. unfold history. simpl. rewrite app_nil_r.
    split; [done|]. split; [by repeat split|]. do 4 (split; [done|]). no_open.
Qed.

(** What one step in the life of a pool records, and that it keeps the
    configuration. *)
Lemma step_counts (st : Step) (s : State) :
  exists evs,
    history (step drv st s) = history s ++ evs /\
    (count is_hook evs <= count is_open evs)%nat /\
    count is_log evs
    = (if noisy (pool s) then count is_open evs + count is_close evs else 0)%nat /\
    opened_as_configured (pool s) evs /\
    same_config (pool s) (pool (step drv st s)).
Proof.
  destruct st as [op| | |]; simpl.
  - destruct (exec_counts op s) as (evs & Hh & _ & Hk & _ & _ & _ & Hg & Ha).
    exists evs. repeat (split; [done|]). apply exec_frame.
  - unfold start, bind, get_pool, runtime, new_trigger, modify_pool, ret. simpl.
    destruct (running (pool s)); simpl.
    + exists []. rewrite app_nil_r. split; [done|]. split; [done|].
      split; [by destruct (noisy (pool s))|]. split; [no_open|by repeat split].
    + eexists. unfold history. simpl. rewrite <- app_assoc. split; [reflexivity|].
      split; [done|]. split; [by destruct (noisy (pool s))|].
      split; [no_open|by repeat split].
  - destruct (shutdownID (pool s)) as [|t0] eqn:Hs.
    + rewrite close_unstarted by done. simpl. exists []. rewrite app_nil_r.
      split; [done|]. split; [done|].
      split; [by destruct (noisy (pool s))|]. split; [no_open|by repeat split].
    + destruct (close_prefix s t0 Hs)
        as (s1 & pre & -> & Hh1 & Hcfg & Po & Pk & Pc & Pg & Pa).
      destruct (finalClose_counts s1) as (evs & Hh & Fo & Fk & Fg & Fa & Fcfg).
      assert (Hnoisy : noisy (pool s1) = noisy (pool s)) by apply Hcfg.
      exists (pre ++ evs). rewrite Hh, Hh1, app_assoc. split; [done|].
      rewrite !count_app, Po, Pk, Pc, Pg, Fo, Fk, Fg, Hnoisy. simpl.
      split; [done|]. split; [done|]. split; [|by eapply same_config_trans].
      apply opened_as_configured_app; [done|].
      intros a k r Hin. apply Fa in Hin.
      destruct Hcfg as (_ & _ & _ & _ & _ & <- & <-). done.
  - destruct (finalClose_counts s) as (evs & Hh & Fo & Fk & Fg & Fa & Fcfg).
    exists evs. rewrite Fo, Fk. simpl. by repeat (split; [done|]).
Qed.

Lemma steps_config (l : list Step) (s : State) :
  same_config (pool s) (pool (steps drv l s)).
Proof.
  induction l as [|st l IH] using rev_ind; [apply same_config_refl|].
  rewrite steps_snoc. eapply same_config_trans; [exact IH|].
  by destruct (step_counts st (steps drv l s)) as (_ & _ & _ & _ & _ & H).
Qed.

Lemma init_config_ok (name : string) (args : list PyVal) (kw : Keywords) (w : World) :
  config_ok (pool (__init__ drv name args kw w)).
Proof.
  unfold config_ok, __init__. simpl. split; [|done].
  destruct (cp_min kw), (cp_max kw); lia.
Qed.

Lemma same_config_ok (p p' : ConnectionPool) :
  same_config p p' -> config_ok p -> config_ok p'.
Proof.
  intros (_ & Hmin & Hmax & _ & _ & _ & Hkw) Hok. unfold config_ok in *.
  by rewrite Hmin, Hmax, Hkw.
Qed.

(** ** Properties of the operations *)

Lemma exec_all_snoc (ops : list Op) (op : Op) (s : State) :
  exec_all drv (ops ++ [op]) s = exec drv op (exec_all drv ops s).
Proof. unfold exec_all. by rewrite fold_left_app. Qed.

Lemma exec_events (op : Op) (s : State) :
  history (exec drv op s) = history s ++ events_since s (exec drv op s).
Proof.
  destruct (exec_counts op s) as (evs & Hh & _).
  by rewrite (events_since_app _ _ _ Hh).
Qed.

(** X11. No operation of a worker thread changes the configuration of the
    pool, its running flag or its two triggers, nor the registry entry of
    any other thread. *)
Theorem operations_frame (op : Op) (s : State) :
  let s' := exec drv op s in
  same_config (pool s) (pool s') /\
  same_runtime (pool s) (pool s') /\
  forall t, t <> op_thread op -> connections (pool s') !! t = connections (pool s) !! t.
Proof.
  destruct (exec_frame op s) as [Hother Hcfg].
  split; [done|]. split; [apply exec_runtime|done].
Qed.

Lemma exec_opens (op : Op) (s : State) :
  count is_open (events_since s (exec drv op s))
  = (if is_disconnect op then 0
     else match connections (pool s) !! op_thread op with
          | Some _ => 0
          | None => 1
          end)%nat.
Proof.
  destruct (exec_counts op s) as (evs' & Hh & H1 & Hk & Hreg & _ & _ & _ & _).
  rewrite (events_since_app _ _ _ Hh).
  destruct (is_disconnect op) eqn:Hd.
  - destruct op; try discriminate. simpl in Hh.
    destruct (disconnect_counts tid conn s) as (evs2 & Hh2 & Ho & _).
    rewrite Hh2 in Hh. by apply app_inv_head in Hh as <-.
  - destruct (connections (pool s) !! op_thread op) as [c|] eqn:Hc.
    + apply Hreg; [done|by eexists].
    + pose proof (connect_opens_once (op_thread op) s Hc) as Hone.
      destruct (connect_facts (op_thread op) s _ _
                  (surjective_pairing (connect drv (op_thread op) s)))
        as (pre & Hpre & _).
      rewrite (events_since_app _ _ _ Hpre) in Hone.
      destruct (unit_events (op_thread op) s) as (Hq & Ho & Hi).
      destruct op as [tid|tid conn|tid args|tid args|tid f args];
        simpl in *; try discriminate.
      * rewrite Hpre in Hh. by apply app_inv_head in Hh as <-.
      * destruct (Hq args) as (post & Hp & Hall). rewrite Hpre, <- app_assoc in Hp.
        rewrite Hp in Hh. apply app_inv_head in Hh as <-.
        apply (unit_phase_counts (pool s)) in Hall as (Hz & _).
        rewrite count_app, Hone, Hz. done.
      * destruct (Ho args) as (post & Hp & Hall & _). rewrite Hpre, <- app_assoc in Hp.
        rewrite Hp in Hh. apply app_inv_head in Hh as <-.
        apply (unit_phase_counts (pool s)) in Hall as (Hz & _).
        rewrite count_app, Hone, Hz. done.
      * destruct (Hi f args) as (post & Hp & Hall). rewrite Hpre, <- app_assoc in Hp.
        rewrite Hp in Hh. apply app_inv_head in Hh as <-.
        apply (unit_phase_counts (pool s)) in Hall as (Hz & _).
        rewrite count_app, Hone, Hz. done.
Qed.

(** X12. A unit of work, like connect(), calls the driver's connect once
    when its worker thread has no connection and not at all when it has
    one; disconnect() never calls it.  The hook is called at most as often
    as the driver's connect. *)
Theorem operations_open_on_demand (op : Op) (s : State) :
  let evs := events_since s (exec drv op s) in
  count is_open evs
  = (if is_disconnect op then 0
     else match connections (pool s) !! op_thread op with
          | Some _ => 0
          | None => 1
          end)%nat /\
  (count is_hook evs <= count is_open evs)%nat.
Proof.
  intros evs. split; [apply exec_opens|].
  destruct (exec_counts op s) as (evs' & Hh & _ & Hk & _).
  subst evs. by rewrite (events_since_app _ _ _ Hh).
Qed.

(** X13. Nothing but disconnect() closes the connection of a worker thread:
    a unit of work calls close() on no connection, whether it succeeds or
    fails, and the connection registered for its thread stays registered. *)
Theorem operations_keep_connection (op : Op) (s : State) :
  is_disconnect op = false ->
  count is_close (events_since s (exec drv op s)) = 0%nat /\
  forall t c, connections (pool s) !! t = Some c ->
              connections (pool (exec drv op s)) !! t = Some c.
Proof.
  intros Hd.
  destruct (exec_counts op s) as (evs & Hh & _ & _ & _ & _ & Hc & _).
  rewrite (events_since_app _ _ _ Hh). split; [by apply Hc|].
  intros t c Ht. apply exec_keeps_entry; [|done]. by destruct op.
Qed.

Lemma connect_phase_no_cursor (evs : list Event) :
  Forall (fun ev => connect_phase ev = true) evs -> count is_cursor_ok evs = 0%nat.
Proof. intros H. eapply count_none; [exact H|]. by intros [[] r]. Qed.

Lemma cursor_events_app (l1 l2 : list Event) :
  cursor_events (l1 ++ l2) = cursor_events l1 ++ cursor_events l2.
Proof. unfold cursor_events. apply List.filter_app. Qed.

Lemma connect_phase_cursor_events (evs : list Event) :
  Forall (fun ev => connect_phase ev = true) evs -> cursor_events evs = [].
Proof.
  induction 1 as [|[[] r] evs Hev _ IH]; simpl in *; try done.
Qed.

Ltac in_order Hpre :=
  since;
  first
    [ left; rewrite ?count_app, ?cursor_events_app, (connect_phase_no_cursor _ Hpre),
        (connect_phase_cursor_events _ Hpre); by split
    | right; eexists _, _;
      (split; [apply in_or_app; right; left; reflexivity|]);
      rewrite ?cursor_events_app, (connect_phase_cursor_events _ Hpre); simpl;
      by repeat split ].

(** X14. A unit of work of runQuery() that got its cursor calls on it
    execute with the arguments given, then fetchall, then close, each
    after the one before has returned, and stops at the first that raises;
    one of runOperation() calls execute, then close: it never fetches.
    Without a cursor no cursor method is called. *)
Theorem cursor_calls_in_order (args : list PyVal) (tid : ThreadId) (s : State) :
  (let evs := events_since s (snd (runQuery drv args tid s)) in
   (count is_cursor_ok evs = 0%nat /\ cursor_events evs = []) \/
   (exists c cur,
      In (Ev (ConnCursor c) (Returned (RCursor cur))) evs /\
      called_in_order cur [("execute", args); ("fetchall", []); ("close", [])]
                      (cursor_events evs))) /\
  (let evs := events_since s (snd (runOperation drv args tid s)) in
   (count is_cursor_ok evs = 0%nat /\ cursor_events evs = []) \/
   (exists c cur,
      In (Ev (ConnCursor c) (Returned (RCursor cur))) evs /\
      called_in_order cur [("execute", args); ("close", [])] (cursor_events evs))).
Proof.
  split; cbv zeta.
  - unfold runQuery, _deferToThread, _runQuery, bind.
    start_unit tid s; simpl; [|in_order Hpre].
    unfold_unit; simpl; repeat oracle; simpl; in_order Hpre.
  - unfold runOperation, _deferToThread, _runOperation, bind.
    start_unit tid s; simpl; [|in_order Hpre].
    unfold_unit; simpl; repeat oracle; simpl; in_order Hpre.
Qed.

(** X15. A connect() that opens a connection, followed by a disconnect()
    of that connection by the same thread that returns, leaves the pool
    object as it was before the two calls. *)
Theorem connect_then_disconnect (tid : ThreadId) (s s1 s2 : State) (c : ConnId) :
  connections (pool s) !! tid = None ->
  connect drv tid s = (Ok c, s1) ->
  disconnect drv tid (Some c) s1 = (Ok tt, s2) ->
  pool s2 = pool s.
Proof.
  intros Hnone Hconn Hdis.
  destruct (connect_facts _ _ _ _ Hconn) as (_ & _ & _ & Hreg & _).
  specialize (Hreg c eq_refl).
  assert (Hp1 : pool s1 = set_connections (insert tid c) (pool s)).
  { destruct (connect_cases tid s Hnone)
      as (s' & [(e & He & _)|[(h & e & _ & He & _)|(Hok & _ & Hp & _)]]);
      rewrite Hconn in *; try discriminate. by inversion Hok; subst. }
  destruct (disconnect_own tid c s1 Hreg)
    as (s2' & r & _ & _ & _ & [(e & -> & Hd & Hp2)|(-> & Hd & Hp2)]);
    rewrite Hdis in Hd; inversion Hd; subst s2'.
  rewrite Hp2, Hp1.
  destruct (pool s) as [n no mi ma ru op ca ck conns st sh]. simpl in *.
  unfold set_connections. simpl. f_equal. by apply delete_insert_id.
Qed.

Lemma exec_all_runtime (ops : list Op) (s : State) :
  same_runtime (pool s) (pool (exec_all drv ops s)).
Proof.
  induction ops as [|op ops IH] using rev_ind; [done|].
  rewrite exec_all_snoc.
  destruct IH as (H1 & H2 & H3), (exec_runtime op (exec_all drv ops s)) as (G1 & G2 & G3).
  repeat split; congruence.
Qed.

(** X8. close() on a pool on which start() has never run raises
    AttributeError for [shutdownID], whatever the worker threads have done
    since the pool was made, and does nothing: no trigger is removed, the
    thread pool is not stopped and no connection is closed. *)
Theorem close_before_start (name : string) (args : list PyVal) (kw : Keywords)
    (w : World) (ops : list Op) :
  let s := exec_all drv ops (__init__ drv name args kw w) in
  close drv s = (Err (AttributeError "shutdownID"), s).
Proof.
  intros s. apply close_unstarted.
  destruct (exec_all_runtime ops (__init__ drv name args kw w)) as (_ & _ & H).
  fold s in H. by rewrite H.
Qed.

Ltac no_cursor Hpre Hc1 Hc2 :=
  since; rewrite ?count_app, ?(connect_phase_no_cursor _ Hpre), ?Hc1, ?Hc2; simpl;
  first [ intros; split; [reflexivity|]; split; [reflexivity|]; eexists; reflexivity
        | intros; lia ].

(** X10. A unit of work in which no cursor() call returns a cursor, because
    the connection could not be opened or because cursor() raised, calls
    neither commit() nor rollback(), and its Deferred fails. *)
Theorem unit_without_cursor (tid : ThreadId) (s : State) :
  (forall args,
     let run := runQuery drv args tid s in
     count is_cursor_ok (events_since s (snd run)) = 0%nat ->
     count is_commit (events_since s (snd run)) = 0%nat /\
     count is_rollback (events_since s (snd run)) = 0%nat /\ failed (fst run)) /\
  (forall args,
     let run := runOperation drv args tid s in
     count is_cursor_ok (events_since s (snd run)) = 0%nat ->
     count is_commit (events_since s (snd run)) = 0%nat /\
     count is_rollback (events_since s (snd run)) = 0%nat /\ failed (fst run)) /\
  (forall f args,
     let run := runInteraction drv f args tid s in
     count is_cursor_ok (events_since s (snd run)) = 0%nat ->
     count is_commit (events_since s (snd run)) = 0%nat /\
     count is_rollback (events_since s (snd run)) = 0%nat /\ failed (fst run)).
Proof.
  unfold failed. split; [|split].
  - intros args. cbv zeta.
    unfold runQuery, _deferToThread, _runQuery, bind.
    start_unit tid s; simpl; [|no_cursor Hpre Hc1 Hc2].
    unfold_unit; simpl. oracle; [no_cursor Hpre Hc1 Hc2|].
    repeat oracle; simpl; no_cursor Hpre Hc1 Hc2.
  - intros args. cbv zeta.
    unfold runOperation, _deferToThread, _runOperation, bind.
    start_unit tid s; simpl; [|no_cursor Hpre Hc1 Hc2].
    unfold_unit; simpl. oracle; [no_cursor Hpre Hc1 Hc2|].
    repeat oracle; simpl; no_cursor Hpre Hc1 Hc2.
  - intros f args. cbv zeta.
    unfold runInteraction, _deferToThread, _runInteraction, bind, get_pool.
    start_unit tid s; simpl; [|no_cursor Hpre Hc1 Hc2].
    unfold_unit; simpl. oracle; [no_cursor Hpre Hc1 Hc2|].
    match goal with |- context [interact drv ?f ?t ?s0] =>
      destruct (interact drv f t s0) as [[[v1 t1]|e1] s3] eqn:Hi;
      apply interact_facts in Hi as (evs & (Hp & Hn & Hh & Hall) & Ht)
    end; simpl in *;
    destruct s3 as [p3 [tr3 nc3 ncur3 nt3]]; unfold history in Hh; simpl in *; subst tr3 p3.
    + destruct (Ht v1 t1 eq_refl) as [Hconn1 Hcur1]; simpl in Hcur1.
      destruct (cursor_after_is_Some (Some ncur1) evs) as [cur1 Hcur1']; [by eexists|].
      rewrite Hcur1' in Hcur1. rewrite Hcur1, Hconn1. simpl.
      repeat oracle; simpl; no_cursor Hpre Hc1 Hc2.
    + repeat oracle; simpl; no_cursor Hpre Hc1 Hc2.
Qed.

(** ** The thread pool and the triggers *)

Lemma exec_worker_phase (op : Op) (s : State) :
  exists evs,
    history (exec drv op s) = history s ++ evs /\
    Forall (fun ev => worker_phase ev = true) evs.
Proof.
  assert (Hc : forall tid, exists evs,
             history (snd (connect drv tid s)) = history s ++ evs /\
             Forall (fun ev => worker_phase ev = true) evs).
  { intros tid.
    destruct (connect_facts tid s _ _ (surjective_pairing (connect drv tid s)))
      as (pre & Hpre & Hall & _).
    exists pre. split; [done|]. eapply Forall_impl; [exact Hall|].
    intros ev Hev. unfold worker_phase. by rewrite Hev. }
  assert (Hu : forall tid s' post,
             history s' = history (snd (connect drv tid s)) ++ post ->
             Forall (fun ev => unit_phase ev = true) post ->
             exists evs, history s' = history s ++ evs /\
                         Forall (fun ev => worker_phase ev = true) evs).
  { intros tid s' post Hh Hall. destruct (Hc tid) as (pre & Hpre & Hw).
    exists (pre ++ post). rewrite Hh, Hpre, app_assoc. split; [done|].
    apply Forall_app. split; [done|]. eapply Forall_impl; [exact Hall|].
    intros ev Hev. unfold worker_phase. rewrite Hev. by destruct (connect_phase ev). }
  destruct (unit_events (op_thread op) s) as (Hq & Ho & Hi).
  destruct op as [tid|tid conn|tid args|tid args|tid f args]; simpl in *.
  - apply Hc.
  - destruct (decide (conn = connections (pool s) !! tid)) as [->|Hne].
    + destruct (connections (pool s) !! tid) as [c|] eqn:Hreg.
      * destruct (disconnect_own tid c s Hreg)
          as (s' & r & Hh & _ & _ & [(e & _ & -> & _)|(_ & -> & _)]);
          (eexists; split; [exact Hh|]);
          (apply Forall_app; split; [|by repeat constructor]);
          unfold close_log; destruct (noisy (pool s)); by repeat constructor.
      * rewrite disconnect_none by done. exists []. by rewrite app_nil_r.
    + rewrite disconnect_wrong by done. exists []. by rewrite app_nil_r.
  - destruct (Hq args) as (post & Hh & Hall). by eapply Hu.
  - destruct (Ho args) as (post & Hh & Hall & _). by eapply Hu.
  - destruct (Hi f args) as (post & Hh & Hall). by eapply Hu.
Qed.

Lemma threads_started_app (b : bool) (l1 l2 : list Event) :
  threads_started b (l1 ++ l2) = threads_started (threads_started b l1) l2.
Proof.
  revert b. induction l1 as [|[[] r] l1 IH]; intros b; simpl; by rewrite ?IH.
Qed.

Lemma never_restarted_app (b : bool) (l1 l2 : list Event) :
  never_restarted b (l1 ++ l2)
  = never_restarted b l1 && never_restarted (threads_started b l1) l2.
Proof.
  revert b. induction l1 as [|[[] r] l1 IH]; intros b; simpl; rewrite ?IH; try done.
  by rewrite andb_assoc.
Qed.

Lemma threads_untouched (b : bool) (evs : list Event) :
  Forall (fun ev => worker_phase ev = true \/ is_remove_trigger ev = true) evs ->
  threads_started b evs = b /\ never_restarted b evs = true.
Proof.
  induction 1 as [|[[] r] evs Hev _ IH]; simpl in *; try done;
    destruct Hev; discriminate.
Qed.

Lemma closes_worker_phase (p : ConnectionPool) (l : list ConnId) :
  Forall (fun ev => worker_phase ev = true) (closes p l).
Proof.
  induction l as [|c l IH]; [constructor|].
  change (closes p (c :: l))
    with ((close_log p ++ [Ev (ConnClose c) (Returned RNone)]) ++ closes p l).
  apply Forall_app. split; [|done]. apply Forall_app. split; [|by repeat constructor].
  unfold close_log. destruct (noisy p); by repeat constructor.
Qed.

Lemma worker_or_trigger (evs : list Event) :
  Forall (fun ev => worker_phase ev = true) evs ->
  Forall (fun ev => worker_phase ev = true \/ is_remove_trigger ev = true) evs.
Proof. intros H. eapply Forall_impl; [exact H|]. by left. Qed.

(** What [finalClose()] records after stopping the thread pool. *)
Lemma finalClose_events (s : State) :
  exists evs,
    history (snd (finalClose drv s))
    = history s ++ Ev ThreadPoolStop (Returned RNone) :: evs /\
    Forall (fun ev => worker_phase ev = true) evs /\
    running (pool (snd (finalClose drv s))) = false /\
    startID (pool (snd (finalClose drv s))) = startID (pool s) /\
    shutdownID (pool (snd (finalClose drv s))) = shutdownID (pool s).
Proof.
  destruct (finalClose drv s) as [res s'] eqn:Hf. simpl.
  apply finalClose_cases in Hf
    as (_ & [(_ & Hp & Hh)|(e & before & c & rest & _ & _ & Hp & Hh)]);
    eexists; (split; [exact Hh|]); rewrite Hp; (split; [|done]).
  - apply closes_worker_phase.
  - apply Forall_app. split; [apply closes_worker_phase|].
    apply Forall_app. split; [|by repeat constructor].
    unfold close_log. destruct (noisy (pool s)); by repeat constructor.
Qed.

(** What [close()] records on a pool on which [start()] has run. *)
Lemma close_events (s : State) (t0 : option TriggerId) :
  shutdownID (pool s) = Assigned t0 ->
  exists evs,
    history (snd (close drv s))
    = history s
        ++ ((fun t => Ev (RemoveTrigger t) (Returned RNone)) <$> pending_triggers (pool s))
        ++ Ev ThreadPoolStop (Returned RNone) :: evs /\
    Forall (fun ev => worker_phase ev = true) evs /\
    running (pool (snd (close drv s))) = false /\
    startID (pool (snd (close drv s))) = None /\
    shutdownID (pool (snd (close drv s))) = Assigned None.
Proof.
  intros Hs.
  assert (exists s1,
             close drv s = finalClose drv s1 /\
             history s1 = history s
               ++ ((fun t => Ev (RemoveTrigger t) (Returned RNone))
                     <$> pending_triggers (pool s)) /\
             startID (pool s1) = None /\ shutdownID (pool s1) = Assigned None)
    as (s1 & -> & Hh1 & Hst & Hsh).
  { unfold close, bind at 1, get_pool, pending_triggers. rewrite Hs.
    destruct s as [p w]. simpl in *.
    destruct t0 as [t|], (startID p) as [t'|] eqn:Hst;
      unfold bind, runtime, modify_pool, get_pool, ret; simpl; rewrite ?Hst; simpl;
      (eexists; split; [reflexivity|]); unfold history; simpl;
      rewrite <- ?app_assoc, ?app_nil_r; done. }
  destruct (finalClose_events s1) as (evs & Hh & Hall & Hr & Hst' & Hsh').
  exists evs. rewrite Hh, Hh1, <- app_assoc, Hst', Hsh'. done.
Qed.

Lemma step_threads (st : Step) (s : State) :
  exists evs,
    history (step drv st s) = history s ++ evs /\
    running (pool (step drv st s)) = threads_started (running (pool s)) evs /\
    never_restarted (running (pool s)) evs = true.
Proof.
  destruct st as [op| | |]; simpl.
  - destruct (exec_worker_phase op s) as (evs & Hh & Hall).
    destruct (exec_runtime op s) as (Hr & _).
    destruct (threads_untouched (running (pool s)) evs (worker_or_trigger _ Hall))
      as [Ht Hn].
    exists evs. by rewrite Hr, Ht, Hn.
  - unfold start, bind, get_pool, runtime, new_trigger, modify_pool, ret. simpl.
    destruct (running (pool s)) eqn:Hr; simpl.
    + exists []. by rewrite app_nil_r, Hr.
    + eexists. unfold history. simpl. rewrite <- app_assoc. split; [reflexivity|done].
  - destruct (shutdownID (pool s)) as [|t0] eqn:Hs.
    + rewrite close_unstarted by done. exists []. by rewrite app_nil_r.
    + destruct (close_events s t0 Hs) as (evs & Hh & Hall & Hr & _).
      eexists. split; [exact Hh|].
      rewrite threads_started_app, never_restarted_app. simpl.
      destruct (threads_untouched false evs (worker_or_trigger _ Hall)) as [-> ->].
      rewrite Hr. split; [done|]. rewrite andb_true_r.
      apply threads_untouched. apply Forall_fmap. apply Forall_true. by right.
  - destruct (finalClose_events s) as (evs & Hh & Hall & Hr & _).
    eexists. split; [exact Hh|]. simpl.
    by destruct (threads_untouched false evs (worker_or_trigger _ Hall)) as [-> ->].
Qed.

(** X7. Through every sequence of operations on a pool, the [running]
    flag says whether the thread pool is started, and start() is never
    called on a thread pool that is started: a start() on a running pool
    does nothing. *)
Theorem running_mirrors_thread_pool (name : string) (args : list PyVal) (kw : Keywords)
    (w : World) (l : list Step) :
  let s0 := __init__ drv name args kw w in
  let evs := events_since s0 (steps drv l s0) in
  running (pool (steps drv l s0)) = threads_started false evs /\
  never_restarted false evs = true.
Proof.
  intros s0 evs. subst evs.
  assert (exists evs, history (steps drv l s0) = history s0 ++ evs /\
                      running (pool (steps drv l s0)) = threads_started false evs /\
                      never_restarted false evs = true) as (evs & Hh & Hr & Hn).
  { induction l as [|st l (evs & Hh & Hr & Hn)] using rev_ind.
    - exists []. by rewrite app_nil_r.
    - rewrite steps_snoc.
      destruct (step_threads st (steps drv l s0)) as (evs' & Hh' & Hr' & Hn').
      exists (evs ++ evs'). rewrite Hh', Hh, app_assoc. split; [done|].
      rewrite threads_started_app, never_restarted_app, <- Hr, Hn. done. }
  by rewrite (events_since_app _ _ _ Hh).
Qed.

Lemma count_remove_triggers (l : list TriggerId) :
  count is_remove_trigger ((fun t => Ev (RemoveTrigger t) (Returned RNone)) <$> l)
  = length l.
Proof.
  induction l as [|t l IH]; [done|].
  cbn [fmap list_fmap count is_remove_trigger]. by rewrite IH.
Qed.

Lemma worker_phase_no_trigger (evs : list Event) :
  Forall (fun ev => worker_phase ev = true) evs -> count is_remove_trigger evs = 0%nat.
Proof.
  intros H. eapply count_none; [exact H|]. by intros [[] r].
Qed.

(** X9. On a pool on which start() has run, close() removes each trigger
    that the pool holds once and forgets it, stops the thread pool and
    clears the running flag, whether or not a connection fails to close; a
    second close() removes no trigger. *)
Theorem close_removes_triggers (s : State) (t0 : option TriggerId) :
  shutdownID (pool s) = Assigned t0 ->
  let s' := snd (close drv s) in
  count is_remove_trigger (events_since s s') = length (pending_triggers (pool s)) /\
  (forall t, In t (pending_triggers (pool s)) ->
             In (Ev (RemoveTrigger t) (Returned RNone)) (events_since s s')) /\
  In (Ev ThreadPoolStop (Returned RNone)) (events_since s s') /\
  running (pool s') = false /\
  startID (pool s') = None /\ shutdownID (pool s') = Assigned None /\
  count is_remove_trigger (events_since s' (snd (close drv s'))) = 0%nat.
Proof.
  intros Hs s'. subst s'.
  destruct (close_events s t0 Hs) as (evs & Hh & Hall & Hr & Hst & Hsh).
  destruct (close_events _ None Hsh) as (evs2 & Hh2 & Hall2 & _).
  assert (Hnone : pending_triggers (pool (snd (close drv s))) = []).
  { unfold pending_triggers. by rewrite Hst, Hsh. }
  rewrite Hnone in Hh2.
  rewrite (events_since_app _ _ _ Hh), (events_since_app _ _ _ Hh2).
  split; [|split; [|split; [|split; [done|split; [done|split; [done|]]]]]].
  - rewrite count_app, count_remove_triggers. simpl.
    rewrite worker_phase_no_trigger by done. lia.
  - intros t Ht. apply in_or_app. left.
    by apply (in_map (fun t => Ev (RemoveTrigger t) (Returned RNone))).
  - apply in_or_app. right. by left.
  - simpl. by apply worker_phase_no_trigger.
Qed.

(** ** From construction on *)

Lemma steps_counts (l : list Step) (s : State) :
  exists evs,
    history (steps drv l s) = history s ++ evs /\
    (count is_hook evs <= count is_open evs)%nat /\
    count is_log evs
    = (if noisy (pool s) then count is_open evs + count is_close evs else 0)%nat /\
    opened_as_configured (pool s) evs.
Proof.
  induction l as [|st l (evs & Hh & Hk & Hg & Ha)] using rev_ind.
  - exists []. rewrite app_nil_r. split; [done|]. split; [done|].
    split; [by destruct (noisy (pool s))|]. by intros a k r [].
  - rewrite steps_snoc.
    destruct (step_counts st (steps drv l s)) as (evs' & Hh' & Hk' & Hg' & Ha' & _).
    destruct (steps_config l s) as (_ & _ & _ & Hnoisy & _ & Hargs & Hkw).
    exists (evs ++ evs'). rewrite Hh', Hh, app_assoc. split; [done|].
    rewrite !count_app, Hg, Hg', Hnoisy. split; [lia|].
    split; [destruct (noisy (pool s)); lia|].
    apply opened_as_configured_app; [done|].
    intros a k r Hin. apply Ha' in Hin. by rewrite <- Hargs, <- Hkw.
Qed.

(** X16. Every call of the driver's connect that a pool makes, through
    whatever sequence of operations, carries the positional arguments
    given to the constructor and its keyword arguments without cp_min,
    cp_max, cp_noisy and cp_openfun. *)
Theorem driver_connect_arguments (name : string) (args : list PyVal) (kw : Keywords)
    (w : World) (l : list Step) :
  let s0 := __init__ drv name args kw w in
  forall a k r,
    In (Ev (DbConnect a k) r) (events_since s0 (steps drv l s0)) ->
    a = args /\ k = mkKeywords None None None None (driver_kw kw).
Proof.
  intros s0 a k r Hin.
  destruct (steps_counts l s0) as (evs & Hh & _ & _ & Ha).
  rewrite (events_since_app _ _ _ Hh) in Hin. by apply Ha in Hin.
Qed.

(** X17. A pool that is noisy logs one line for every call of the driver's
    connect and one for every close() of a connection; a pool that is not
    logs nothing once it is constructed. *)
Theorem log_lines (l : list Step) (s : State) :
  let evs := events_since s (steps drv l s) in
  count is_log evs
  = (if noisy (pool s) then count is_open evs + count is_close evs else 0)%nat.
Proof.
  intros evs. destruct (steps_counts l s) as (evs' & Hh & _ & Hg & _).
  subst evs. by rewrite (events_since_app _ _ _ Hh).
Qed.

Lemma init_is_init_body (name : string) (args : list PyVal) (kw : Keywords) (w : World) :
  __init__ drv name args kw w = init_body drv true 3 5 name args kw w.
Proof. reflexivity. Qed.

(** X6. Pickling a pool, at whatever point of its life, and restoring it
    gives a pool with the same driver name, noisy flag, bounds and connect
    arguments, that is not running, has no connection, has a trigger for
    start() and no shutdown trigger; the cp_openfun hook is not kept. *)
Theorem pickle_round_trip (name : string) (args : list PyVal) (kw : Keywords)
    (w w' : World) (l : list Step) :
  let p := pool (steps drv l (__init__ drv name args kw w)) in
  let s' := __setstate__ drv (__getstate__ p) w' in
  dbapiName (pool s') = dbapiName p /\ noisy (pool s') = noisy p /\
  min (pool s') = min p /\ max (pool s') = max p /\
  connargs (pool s') = connargs p /\ connkw (pool s') = connkw p /\
  openfun (pool s') = None /\ connections (pool s') = ∅ /\
  running (pool s') = false /\ shutdownID (pool s') = Unset /\
  startID (pool s') = Some (next_trigger w') /\
  next_conn (world s') = next_conn w' /\
  count is_open (drop (length (trace w')) (history s')) = 0%nat.
Proof.
  intros p s'.
  assert (Hok : config_ok p).
  { eapply same_config_ok; [apply steps_config|apply init_config_ok]. }
  destruct Hok as (Hle & Hmin & Hmax & Hnoisy & Hfun).
  subst s'. unfold __setstate__, init_body, __getstate__. simpl.
  rewrite Hmin, Hmax, Hnoisy, Hfun.
  destruct (connkw p) as [k1 k2 k3 k4 dk] eqn:Hkw. simpl in *. subst.
  rewrite Z.min_l by done. rewrite Z.max_r by done.
  unfold ThreadPool, callWhenRunning, record_event, history.
  destruct (decide (apilevel drv = Some "2.0")), (threadsafety drv <? 1)%Z; simpl;
    rewrite <- ?app_assoc, drop_app_length; done.
Qed.

(** X18. A pool that has been closed is not out of use: connect() does
    not look at the running flag, so after a finalClose() that returned
    the next connect() of any thread opens a new connection, while the
    pool stays not running. *)
Theorem reopens_after_close (s : State) (tid : ThreadId) :
  fst (finalClose drv s) = Ok tt ->
  let s1 := snd (finalClose drv s) in
  count is_open (events_since s1 (snd (connect drv tid s1))) = 1%nat /\
  running (pool (snd (connect drv tid s1))) = false.
Proof.
  intros Hok s1. subst s1.
  destruct (finalClose drv s) as [res s1] eqn:Hf. simpl in *. subst res.
  apply finalClose_cases in Hf as (_ & [(_ & Hp & _)|(e & ? & ? & ? & [=] & _)]).
  destruct (connect_runtime tid s1) as (Hr & _).
  pose proof (exec_opens (OpConnect tid) s1) as Ho. simpl in Ho.
  rewrite Ho, Hr, Hp. done.
Qed.

End Proofs.

(** ** The claims at concrete pools *)

(** C1 at a query, an operation and an interaction on a quiet driver. *)
Lemma C1_witness :
  fst (runQuery quiet select1 7 pool0) = Callback (VRows [[PInt 1]]) /\
  committed_once 7 pool0 (snd (runQuery quiet select1 7 pool0)) /\
  committed_once 7 pool0 (snd (runOperation quiet select1 7 pool0)) /\
  committed_once 7 pool0 (snd (runInteraction quiet fetch_one [] 7 pool0)).
Proof.
  split; [vm_compute; reflexivity|]. split; [|split].
  - destruct (C1_success_commits_once quiet 7 pool0
                (snd (runQuery quiet select1 7 pool0))) as (Hq & _ & _).
    apply (Hq select1 (VRows [[PInt 1]])). vm_compute. reflexivity.
  - destruct (C1_success_commits_once quiet 7 pool0
                (snd (runOperation quiet select1 7 pool0))) as (_ & Ho & _).
    apply (Ho select1 tt). vm_compute. reflexivity.
  - destruct (C1_success_commits_once quiet 7 pool0
                (snd (runInteraction quiet fetch_one [] 7 pool0))) as (_ & _ & Hi).
    apply (Hi fetch_one [] (VRows [[PInt 1]])). vm_compute. reflexivity.
Defined.

(** C2, as the claim has it, fails when the rollback raises too: the
    Deferred gets the rollback's failure, not the failure of execute(). *)
Lemma C2_counterexample :
  let s := new_pool bad_execute_rollback no_kw in
  let run := runQuery bad_execute_rollback select1 7 s in
  In (Ev (CursorAttr 0 "execute" select1) (Raised (DriverError 1)))
     (events_since s (snd run)) /\
  fst run = Errback (DriverError 2) /\
  fst run <> Errback (DriverError 1).
Proof. vm_compute. split; [tauto|]. split; [reflexivity|discriminate]. Qed.

Lemma C2_witness :
  let s := new_pool bad_execute no_kw in
  (fst (runQuery bad_execute select1 7 s) = Errback (DriverError 1) /\
   rolled_back_once 7 s (snd (runQuery bad_execute select1 7 s))) /\
  (fst (runOperation bad_execute select1 7 s) = Errback (DriverError 1) /\
   rolled_back_once 7 s (snd (runOperation bad_execute select1 7 s))) /\
  (fst (runInteraction quiet value_error [] 7 pool0) = Errback (PyException "ValueError") /\
   rolled_back_once 7 pool0 (snd (runInteraction quiet value_error [] 7 pool0))).
Proof.
  intros s. split; [|split]; (split; [vm_compute; reflexivity|]).
  - destruct (C2_failure_rolls_back_once bad_execute 7 s
                (snd (runQuery bad_execute select1 7 s)) (DriverError 1)) as (Hq & _ & _).
    apply (Hq select1 (Errback (DriverError 1)) 0%nat select1).
    + vm_compute. reflexivity.
    + left. vm_compute. tauto.
  - destruct (C2_failure_rolls_back_once bad_execute 7 s
                (snd (runOperation bad_execute select1 7 s)) (DriverError 1)) as (_ & Ho & _).
    apply (Ho select1 (Errback (DriverError 1)) 0%nat select1).
    + vm_compute. reflexivity.
    + vm_compute. tauto.
  - destruct (C2_failure_rolls_back_once quiet 7 pool0
                (snd (runInteraction quiet value_error [] 7 pool0))
                (PyException "ValueError")) as (_ & _ & Hi).
    apply (Hi value_error [] (Errback (PyException "ValueError"))).
    + vm_compute. reflexivity.
    + vm_compute. tauto.
Defined.

(** C3, as the claim has it, fails when the commit raises: the
    interaction returned its rows, the cursor was closed, and the Deferred
    fails. *)
Lemma C3_counterexample :
  let s := new_pool bad_commit no_kw in
  let run := runInteraction bad_commit fetch_one [] 7 s in
  In (Ev (Interact []) (Returned (RValue (VRows [[PInt 1]])))) (events_since s (snd run)) /\
  fst run = Errback (DriverError 3) /\
  fst run <> Callback (VRows [[PInt 1]]).
Proof. vm_compute. split; [tauto|]. split; [reflexivity|discriminate]. Qed.

Lemma C3_witness :
  let run := runInteraction quiet fetch_one [] 7 pool0 in
  let fail := runInteraction quiet value_error [] 7 pool0 in
  (fst run = Callback (VRows [[PInt 1]]) /\
   exists pre c cur post,
     connections (pool (snd run)) !! 7%nat = Some c /\ opened pre = Some cur /\
     events_since pool0 (snd run)
     = pre ++ Ev (Interact []) (Returned (RValue (VRows [[PInt 1]]))) :: post) /\
  (exists pre c rr,
     connections (pool (snd fail)) !! 7%nat = Some c /\
     events_since pool0 (snd fail)
     = pre ++ [Ev (Interact []) (Raised (PyException "ValueError")); Ev (ConnRollback c) rr]).
Proof.
  intros run fail. split; [split; [vm_compute; reflexivity|]|].
  - destruct (C3_interaction_outcomes quiet 7 fetch_one [] pool0 (snd run) (fst run))
      as [Hret _]; [apply surjective_pairing|].
    destruct (Hret (VRows [[PInt 1]])) as (pre & c & cur & post & H1 & H2 & H3 & _).
    + vm_compute. tauto.
    + by exists pre, c, cur, post.
  - destruct (C3_interaction_outcomes quiet 7 value_error [] pool0 (snd fail) (fst fail))
      as [_ Hraise]; [apply surjective_pairing|].
    destruct (Hraise (PyException "ValueError")) as (pre & c & rr & H1 & H2 & _).
    + vm_compute. tauto.
    + by exists pre, c, rr.
Defined.

(** C4, as the claim has it, fails when the hook raises: the driver's
    connect returned a connection, and neither is it stored nor returned. *)
Lemma C4_counterexample :
  let s := hooked bad_hook in
  let run := connect bad_hook 7 s in
  connections (pool s) !! 7%nat = None /\
  In (Ev (DbConnect [PStr "db"] no_kw) (Returned (RConn 0))) (events_since s (snd run)) /\
  fst run = Err (DriverError 4) /\
  connections (pool (snd run)) !! 7%nat = None.
Proof. vm_compute. split; [reflexivity|]. split; [tauto|]. by split. Qed.

Lemma C4_witness :
  connect quiet 7 (in_service quiet) = (Ok 0%nat, in_service quiet) /\
  (exists s', connect quiet 7 pool0 = (Ok 0%nat, s') /\
              connections (pool s') = <[7%nat := 0%nat]> (connections (pool pool0))) /\
  (let s := new_pool bad_connect no_kw in
   connections (pool (snd (connect bad_connect 7 s))) !! 7%nat = None /\
   count is_open (events_since (snd (connect bad_connect 7 s))
                               (snd (connect bad_connect 7 (snd (connect bad_connect 7 s)))))
   = 1%nat).
Proof.
  split; [|split].
  - apply (proj1 (C4_connect_opens_or_reuses quiet 7 (in_service quiet))).
    vm_compute. reflexivity.
  - destruct (proj1 (proj2 (C4_connect_opens_or_reuses quiet 7 pool0)))
      as (s' & [(e & Heq & _)|[(h & e & Hh & _)|(Heq & _ & Hreg)]]).
    + vm_compute. reflexivity.
    + exfalso. assert (E : fst (connect quiet 7 pool0) = Ok 0%nat) by (vm_compute; reflexivity).
      rewrite Heq in E. discriminate.
    + exfalso. assert (E : openfun (pool pool0) = None) by (vm_compute; reflexivity).
      rewrite Hh in E. discriminate.
    + by exists s'.
  - intros s.
    apply (proj2 (proj2 (C4_connect_opens_or_reuses bad_connect 7 s)) (DriverError 6)).
    + vm_compute. reflexivity.
    + vm_compute. reflexivity.
Defined.

(** C5, as the claim has it, fails when the pool is closed between the two
    calls: nobody calls disconnect, and worker 7 gets another connection. *)
Lemma C5_counterexample :
  let s1 := in_service quiet in
  let s2 := snd (close quiet s1) in
  connect quiet 7 (snd (start (new_pool quiet no_kw))) = (Ok 0%nat, s1) /\
  fst (close quiet s1) = Ok tt /\
  fst (connect quiet 7 s2) = Ok 1%nat.
Proof. vm_compute. by repeat split. Qed.

Lemma C5_witness :
  let s1 := in_service quiet in
  connect quiet 7 (snd (start (new_pool quiet no_kw))) = (Ok 0%nat, s1) /\
  forallb (keeps_entry 7) life = true /\
  fst (connect quiet 7 (steps quiet life s1)) = Ok 0%nat /\
  fst (connect quiet 8 (steps quiet (life ++ [StepClose]) s1)) = Ok 2%nat /\
  2%nat <> 0%nat.
Proof.
  intros s1.
  assert (Hreach : reachable quiet (snd (start (new_pool quiet no_kw))))
    by apply reach_start, reach_init.
  assert (Hconn : connect quiet 7 (snd (start (new_pool quiet no_kw))) = (Ok 0%nat, s1))
    by (vm_compute; reflexivity).
  split; [exact Hconn|]. split; [reflexivity|].
  split; [|split; [vm_compute; reflexivity|]].
  - assert (Hok : exists c', fst (connect quiet 7 (steps quiet life s1)) = Ok c')
      by (eexists; vm_compute; reflexivity).
    destruct Hok as [c' Hc']. rewrite Hc'. f_equal.
    apply (proj1 (C5_thread_affinity quiet _ _ 7 0 life Hreach Hconn)
             c' (snd (connect quiet 7 (steps quiet life s1)))); [reflexivity|].
    rewrite <- Hc'. apply surjective_pairing.
  - destruct (C5_thread_affinity quiet _ _ 7 0 (life ++ [StepClose]) Hreach Hconn)
      as [_ Hother].
    apply (Hother 8%nat 2%nat (snd (connect quiet 8 (steps quiet (life ++ [StepClose]) s1))));
      [lia|].
    vm_compute. reflexivity.
Defined.



(** C7, as the claim has it, fails for disconnect(None) by a worker that
    has no entry: no error is raised. *)
Lemma C7_counterexample :
  connections (pool pool0) !! 3%nat = None /\
  disconnect quiet 3 None pool0 = (Ok tt, pool0).
Proof. vm_compute. by split. Qed.

Lemma C7_witness :
  disconnect quiet 3 (Some 0%nat) pool0
  = (Err (PyException "wrong connection for thread"), pool0) /\
  disconnect quiet 3 None pool0 = (Ok tt, pool0) /\
  (exists s', disconnect quiet 7 (Some 0%nat) (in_service quiet) = (Ok tt, s') /\
              connections (pool s') = delete 7%nat (connections (pool (in_service quiet)))).
Proof.
  split; [|split].
  - apply (proj1 (C7_disconnect_ownership quiet 3 (Some 0%nat) pool0)).
    vm_compute. discriminate.
  - apply (proj1 (proj2 (C7_disconnect_ownership quiet 3 None pool0))).
    + reflexivity.
    + vm_compute. reflexivity.
  - destruct (proj2 (proj2 (C7_disconnect_ownership quiet 7 (Some 0%nat) (in_service quiet)))
                0%nat) as (s' & [(Heq & _ & Hreg)|(e & Heq & _)]).
    + reflexivity.
    + vm_compute. reflexivity.
    + by exists s'.
    + exfalso.
      assert (E : fst (disconnect quiet 7 (Some 0%nat) (in_service quiet)) = Ok tt)
        by (vm_compute; reflexivity).
      rewrite Heq in E. discriminate.
Defined.

(** C8, as the claim has it, fails for cp_min = 5 and cp_max = 0: the
    pool is built with min = max = 0. *)
Lemma C8_counterexample :
  let p := pool (new_pool quiet (mkKeywords (Some 5%Z) (Some 0%Z) None None [])) in
  min p = 0%Z /\ max p = 0%Z /\ ~ (0 < min p)%Z.
Proof. vm_compute. split; [reflexivity|]. split; [reflexivity|]. discriminate. Qed.

(** C9, as the claim has it, fails after a close() made through the
    handle: the handle still holds that cursor, now closed, and forwards the
    next execute() to it. *)
Lemma C9_counterexample :
  let s := snd (__getattr__ quiet handle0 "close" [] busy) in
  _cursor handle0 = Some 1%nat /\
  cursor_closed (history s) 1 = true /\
  events_since s (snd (__getattr__ quiet handle0 "execute" select1 s))
  = [Ev (CursorAttr 1 "execute" select1) (Returned (RValue (VScalar PNone)))].
Proof. vm_compute. by repeat split. Qed.

Lemma busy_cursors_ok : cursors_ok busy.
Proof. apply cursors_okb_ok. vm_compute. reflexivity. Qed.

Lemma C9_witness :
  (exists s', Transaction__init__ quiet (pool busy) 0 busy
              = (Ok (mkTransaction 0 (Some 2%nat)), s') /\
              cursor_closed (history s') 2 = false) /\
  (exists s', reopen quiet handle0 busy = (Ok (mkTransaction 0 (Some 2%nat)), s') /\
              cursor_closed (history s') 2 = false) /\
  __getattr__ quiet handle0 "fetchall" [] busy = cursor_attr quiet 1 "fetchall" [] busy /\
  cursor_closed (history (snd (__getattr__ quiet handle0 "close" [] busy))) 1 = true.
Proof.
  destruct (C9_handle_cursor quiet busy) as (Hinit & Hreopen & Hfwd & Hopen & Hclosed).
  destruct (Hopen busy_cursors_ok) as [Hopen1 Hopen2].
  split; [|split; [|split]].
  - exists (snd (Transaction__init__ quiet (pool busy) 0 busy)).
    assert (Heq : Transaction__init__ quiet (pool busy) 0 busy
                  = (Ok (mkTransaction 0 (Some 2%nat)),
                     snd (Transaction__init__ quiet (pool busy) 0 busy)))
      by (vm_compute; reflexivity).
    split; [exact Heq|].
    destruct (Hopen1 _ _ _ _ Heq) as (cur & [= <-] & Hc). exact Hc.
  - exists (snd (reopen quiet handle0 busy)).
    assert (Heq : reopen quiet handle0 busy
                  = (Ok (mkTransaction 0 (Some 2%nat)), snd (reopen quiet handle0 busy)))
      by (vm_compute; reflexivity).
    split; [exact Heq|].
    assert (Hh : handle_ok (_cursor handle0) busy)
      by (intros cur0 [= <-]; vm_compute; lia).
    destruct (Hopen2 handle0 _ _ Hh Heq) as (cur & [= <-] & Hc).
    exact Hc.
  - apply Hfwd. reflexivity.
  - apply (Hclosed handle0 1%nat [] (VScalar PNone)); [reflexivity|].
    vm_compute. reflexivity.
Defined.

Lemma C10_witness :
  only_entry_changed 7 pool0 (snd (connect quiet 7 pool0)) /\
  only_entry_changed 7 (in_service quiet)
                     (snd (disconnect quiet 7 (Some 0%nat) (in_service quiet))).
Proof.
  split.
  - apply (proj1 (C10_connect_disconnect_frame quiet 7 pool0)).
  - apply (proj2 (C10_connect_disconnect_frame quiet 7 (in_service quiet))).
Defined.

(** * More of the module *)

(** ** safe *)

Lemma replace_single (a : Ascii.ascii) (new s : list Ascii.ascii) :
  replace [a] new s = flat_map (fun c => if Ascii.eqb a c then new else [c]) s.
Proof.
  unfold replace. induction s as [|c s IH]; [done|].
  simpl. rewrite andb_true_r. rewrite IH. by destruct (Ascii.eqb a c).
Qed.

Lemma escape_cases (c : Ascii.ascii) :
  escape c = c :: (if special c then [c] else []).
Proof.
  unfold escape, special.
  destruct (Ascii.eqb_spec c quote) as [->|_]; [done|].
  by destruct (Ascii.eqb_spec c backslash) as [->|_].
Qed.

Lemma safe_flat_map (t : list Ascii.ascii) : safe t = flat_map escape t.
Proof.
  unfold safe. rewrite !replace_single.
  induction t as [|c t IH]; [done|].
  cbn [flat_map]. rewrite flat_map_app, IH. f_equal.
  unfold escape. rewrite (Ascii.eqb_sym c quote), (Ascii.eqb_sym c backslash).
  destruct (Ascii.eqb_spec quote c) as [<-|_]; [done|].
  cbn [flat_map]. by rewrite app_nil_r.
Qed.

(** X1. The two replacements of [safe], made one after the other, come to
    one pass over the text that doubles every quote and every backslash and
    keeps every other character: the second replacement never touches what
    the first one wrote. *)
Theorem safe_escapes_each_character (t : list Ascii.ascii) :
  safe t = flat_map escape t /\
  forall c, escape c = if special c then [c; c] else [c].
Proof.
  split; [apply safe_flat_map|].
  intros c. rewrite escape_cases. by destruct (special c).
Qed.

(** X2. Escaping a concatenation is concatenating the escaped parts. *)
Theorem safe_app (a b : list Ascii.ascii) : safe (a ++ b) = safe a ++ safe b.
Proof. rewrite !safe_flat_map. apply flat_map_app. Qed.

(** X3. [safe] loses nothing: two texts with the same escaped form are the
    same text. *)
Theorem safe_injective (a b : list Ascii.ascii) : safe a = safe b -> a = b.
Proof.
  rewrite !safe_flat_map. revert b.
  induction a as [|c a IH]; intros [|d b]; simpl; rewrite ?escape_cases; try done.
  intros [= <- Hrest]. f_equal. apply IH.
  destruct (special c); [by injection Hrest|done].
Qed.

(** X4. The escaped text is longer by the number of quotes and backslashes
    in the text; a text without any is returned as it is. *)
Theorem safe_length (t : list Ascii.ascii) :
  length (safe t) = (length t + length (List.filter special t))%nat /\
  (List.filter special t = [] -> safe t = t).
Proof.
  rewrite safe_flat_map. induction t as [|c t [IHlen IHid]]; [done|].
  simpl. rewrite escape_cases, length_app. destruct (special c); simpl.
  - split; [rewrite IHlen; lia|done].
  - split; [by rewrite IHlen|]. intros H. by rewrite IHid.
Qed.

(** X5. In the escaped text every quote and every backslash stands in a
    pair: no quote of the text is left to end an SQL string literal. *)
Theorem safe_paired (t : list Ascii.ascii) : paired (safe t) = true.
Proof.
  rewrite safe_flat_map. induction t as [|c t IH]; [done|].
  cbn [flat_map]. rewrite escape_cases. destruct (special c) eqn:Hc.
  - cbn [app paired]. by rewrite Hc, Ascii.eqb_refl.
  - cbn [app paired]. by rewrite Hc.
Qed.

(** ** Instances of the properties above *)

Lemma safe_injective_witness :
  safe (text "O'Hara") = safe (text "O'Hara") /\ text "O'Hara" = text "O'Hara".
Proof.
  split; [reflexivity|]. apply (safe_injective (text "O'Hara") (text "O'Hara")). reflexivity.
Defined.

Lemma safe_length_witness :
  length (safe (text "it's")) = 5%nat /\
  List.filter special (text "abc") = [] /\ safe (text "abc") = text "abc".
Proof.
  split; [|split].
  - etransitivity; [exact (proj1 (safe_length (text "it's")))|reflexivity].
  - reflexivity.
  - apply (proj2 (safe_length (text "abc"))). reflexivity.
Defined.

Lemma unit_without_cursor_witness :
  let s := new_pool bad_connect no_kw in
  let run := runQuery bad_connect select1 7 s in
  count is_cursor_ok (events_since s (snd run)) = 0%nat /\
  count is_commit (events_since s (snd run)) = 0%nat /\
  count is_rollback (events_since s (snd run)) = 0%nat /\ failed (fst run).
Proof.
  intros s run.
  assert (H : count is_cursor_ok (events_since s (snd run)) = 0%nat)
    by (vm_compute; reflexivity).
  split; [exact H|].
  exact (proj1 (unit_without_cursor bad_connect 7 s) select1 H).
Defined.

Lemma operations_keep_connection_witness :
  let s := in_service bad_execute in
  let s' := exec bad_execute (OpRunQuery 7 select1) s in
  count is_close (events_since s s') = 0%nat /\
  connections (pool s') !! 7%nat = Some 0%nat.
Proof.
  intros s s'.
  destruct (operations_keep_connection bad_execute (OpRunQuery 7 select1) s eq_refl)
    as [H1 H2].
  split; [exact H1|]. apply H2. vm_compute. reflexivity.
Defined.

Lemma connect_then_disconnect_witness :
  pool (snd (disconnect quiet 7 (Some 0%nat) (snd (connect quiet 7 pool0)))) = pool pool0.
Proof.
  apply (connect_then_disconnect quiet 7 pool0 (snd (connect quiet 7 pool0))
           (snd (disconnect quiet 7 (Some 0%nat) (snd (connect quiet 7 pool0)))) 0%nat).
  - vm_compute. reflexivity.
  - vm_compute. reflexivity.
  - vm_compute. reflexivity.
Defined.

Lemma close_removes_triggers_witness :
  let s := in_service quiet in
  let s' := snd (close quiet s) in
  count is_remove_trigger (events_since s s') = 2%nat /\
  In (Ev (RemoveTrigger 1) (Returned RNone)) (events_since s s') /\
  running (pool s') = false /\
  startID (pool s') = None /\ shutdownID (pool s') = Assigned None.
Proof.
  intros s s'.
  destruct (close_removes_triggers quiet s (Some 1%nat))
    as (H1 & H2 & _ & H3 & H4 & H5 & _).
  { vm_compute. reflexivity. }
  split; [|split; [|by repeat split]].
  - etransitivity; [exact H1|]. vm_compute. reflexivity.
  - apply H2. vm_compute. left. reflexivity.
Defined.

Lemma driver_connect_arguments_witness :
  let kw := mkKeywords (Some 1%Z) (Some 2%Z) (Some false) (Some 9%nat)
                       [("timeout", PInt 5)] in
  let s0 := __init__ quiet "sqlite" [PStr "db"] kw fresh_world in
  let sent := mkKeywords None None None None [("timeout", PInt 5)] in
  In (Ev (DbConnect [PStr "db"] sent) (Returned (RConn 0)))
     (events_since s0 (steps quiet [StepExec (OpRunQuery 7 select1)] s0)) /\
  [PStr "db"] = [PStr "db"] /\ sent = mkKeywords None None None None (driver_kw kw).
Proof.
  intros kw s0 sent.
  assert (H : In (Ev (DbConnect [PStr "db"] sent) (Returned (RConn 0)))
                 (events_since s0 (steps quiet [StepExec (OpRunQuery 7 select1)] s0)))
    by (vm_compute; left; reflexivity).
  split; [exact H|].
  exact (driver_connect_arguments quiet "sqlite" [PStr "db"] kw fresh_world
           [StepExec (OpRunQuery 7 select1)] _ _ _ H).
Defined.

Lemma reopens_after_close_witness :
  let s1 := snd (finalClose quiet (in_service quiet)) in
  count is_open (events_since s1 (snd (connect quiet 7 s1))) = 1%nat /\
  running (pool (snd (connect quiet 7 s1))) = false.
Proof.
  apply (reopens_after_close quiet (in_service quiet) 7).
  vm_compute. reflexivity.
Defined.
